(** * Audit cache, run averaging and page-state detection

    A shallow embedding of the helpers of the Playwright / Lighthouse /
    Axe test harness:

    - [tests/helpers/audits/audit-cache.js]: the class [AuditCache];
    - the helpers' entry module (required as [./helpers]; its text follows
      the configuration in [tests/helpers/config/audit-config.js]):
      [calculateAverageLighthouseScores], [runCombinedAudit], [getPageState];
    - the module required as [./state]: the class [TestState];
    - [tests/helpers/audits/lighthouse-audit.js]: the shape of what
      [runLighthouseAudit] returns.

    JavaScript numbers are IEEE-754 binary64 values and are modelled by
    Rocq's primitive floats, so every concrete score below is computed
    with the arithmetic the program really performs.  JavaScript [Map]s
    keyed by strings are [gmap string _]; plain objects are association
    lists in property-insertion order. *)

From Stdlib Require Import Floats ZArith String Ascii List Bool Lia DecimalString.
From stdpp Require Import gmap strings list fin_maps.
Set Warnings "-register-all".
Import ListNotations.

Local Open Scope string_scope.

(** ** JavaScript values *)

Module JS.

(** The values the helpers handle.  An object is the list of its own
    enumerable properties, in insertion order. *)
Inductive value : Type :=
| VUndefined
| VNull
| VBool (b : bool)
| VNum (n : float)
| VStr (s : string)
| VObj (props : list (string * value)).

Definition object : Type := list (string * value).

(** [ToBoolean]: [undefined], [null], [false], [+0], [-0], [NaN] and the empty
    string are falsy, everything else (every object included) is truthy. *)
Definition to_boolean (v : value) : bool :=
  match v with
  | VUndefined | VNull => false
  | VBool b => b
  | VNum n => negb (PrimFloat.eqb n 0 || negb (PrimFloat.eqb n n))
  | VStr s => negb (String.eqb s "")
  | VObj _ => true
  end.

(** [a || b] on values. *)
Definition or_else (a b : value) : value := if to_boolean a then a else b.

(** [typeof v === "number"]. *)
Definition is_number (v : value) : bool :=
  match v with VNum _ => true | _ => false end.

(** Property lookup and assignment on a property list.  Assignment keeps
    the position of an existing key and appends a new one. *)
Fixpoint obj_get (ps : object) (k : string) : value :=
  match ps with
  | [] => VUndefined
  | (k', v) :: ps' => if String.eqb k' k then v else obj_get ps' k
  end.

Fixpoint obj_set (ps : object) (k : string) (v : value) : object :=
  match ps with
  | [] => [(k, v)]
  | (k', v') :: ps' =>
      if String.eqb k' k then (k, v) :: ps' else (k', v') :: obj_set ps' k v
  end.

Definition keys (ps : object) : list string := map fst ps.

(** The decimal spelling of an array or string index. *)
Definition index_key (i : nat) : string := NilEmpty.string_of_uint (Nat.to_uint i).

Fixpoint string_props (i : nat) (s : string) : object :=
  match s with
  | EmptyString => []
  | String c s' => (index_key i, VStr (String c EmptyString)) :: string_props (S i) s'
  end.

(** The own enumerable properties of a value: what an object spread
    [{...v}] copies.  Only a string primitive has any besides objects (its
    characters, keyed by index); [null], [undefined], booleans and numbers
    spread to nothing. *)
Definition own_props (v : value) : object :=
  match v with
  | VObj ps => ps
  | VStr s => string_props 0 s
  | _ => []
  end.

(** [v[k]] for a value that is neither [null] nor [undefined].  Inherited
    properties are not modelled: none of the keys read by the helpers
    ([scores], [axeResults], the metric names) is on a built-in prototype. *)
Definition get_prop (v : value) (k : string) : value := obj_get (own_props v) k.

(** [arr.forEach(f)] with the state the callback mutates threaded through. *)
Definition forEach {A S : Type} (l : list A) (f : A -> S -> S) (s : S) : S :=
  fold_left (fun acc a => f a acc) l s.

(** A length or count as a JavaScript number (exact below 2^53). *)
Definition number_of_nat (n : nat) : float := PrimFloat.of_uint63 (Uint63.of_Z (Z.of_nat n)).

(** [Math.round]: a non-finite or integral argument is returned as it is;
    otherwise the closest integer, a tie going towards +infinity, and a
    result of zero keeping the sign of the argument. *)
Definition Math_round (x : float) : float :=
  match Prim2SF x with
  | S754_finite s m e =>
      if (0 <=? e)%Z then x
      else
        let num := if s then Z.neg m else Z.pos m in
        let r := ((2 * num + 2 ^ (- e)) / 2 ^ (- e + 1))%Z in
        if (r =? 0)%Z then (if s then PrimFloat.opp 0 else 0%float)
        else if (r <? 0)%Z then PrimFloat.opp (PrimFloat.of_uint63 (Uint63.of_Z (- r)))
        else PrimFloat.of_uint63 (Uint63.of_Z r)
  | _ => x
  end.

End JS.

Import JS.

#[export] Instance float_inhabited : Inhabited float := populate 0%float.

(** ** Run averager ([calculateAverageLighthouseScores]) *)

Definition metrics : list string :=
  ["performance"; "accessibility"; "bestPractices"; "seo"; "pwa"].

(** The inner loop [ms.forEach(metric => ...)] for a run whose [scores] is
    [scores]: each score that is a number is added to its total. *)
Definition add_scores (scores : value) (ms : list string) (totals : gmap string float)
  : gmap string float :=
  forEach ms
    (fun metric totals =>
       match get_prop scores metric with
       | VNum x => <[metric := ((totals !!! metric) + x)%float]> totals
       | _ => totals
       end)
    totals.

(** The callback of [runs.forEach]: only a truthy run with a truthy
    [scores] is looked at. *)
Definition add_run_scores (run : value) (totals : gmap string float) : gmap string float :=
  if to_boolean run && to_boolean (get_prop run "scores") then
    add_scores (get_prop run "scores") metrics totals
  else totals.

Definition sum_scores (runs : list value) : gmap string float :=
  let totals := forEach metrics (fun metric totals => <[metric := 0%float]> totals) ∅ in
  forEach runs add_run_scores totals.

Definition average_of (total : float) (n : nat) : float :=
  (Math_round (total / number_of_nat n * 100) / 100)%float.

(** [runs] is an array (the orchestrator always passes one), so the guard
    [!runs || runs.length === 0] is the test for the empty array. *)
Definition calculateAverageLighthouseScores (runs : list value) : value :=
  if (length runs =? 0)%nat then VNull
  else
    let totals := sum_scores runs in
    let averages :=
      forEach metrics
        (fun metric averages =>
           obj_set averages metric (VNum (average_of (totals !!! metric) (length runs))))
        [] in
    VObj (obj_set
            (obj_set (own_props (List.last runs VUndefined)) "scores" (VObj averages))
            "runs" (VNum (number_of_nat (length runs)))).

(** A run whose [scores] object is [scores]. *)
Definition run_with_scores (scores : object) : value := VObj [("scores", VObj scores)].

(** What [runLighthouseAudit] returns when the engine succeeds
    ([tests/helpers/audits/lighthouse-audit.js], the [metrics] object and the
    [return] statement): the category scores sit under [metrics], with the
    engine's key [best-practices]. *)
Definition lighthouse_result (performance accessibility best_practices seo : float)
    (thresholdBreached : bool) (htmlReportPath jsonReportPath : string) : value :=
  VObj [("metrics", VObj [("performance", VNum performance);
                          ("accessibility", VNum accessibility);
                          ("best-practices", VNum best_practices);
                          ("seo", VNum seo)]);
        ("thresholdBreached", VBool thresholdBreached);
        ("reportPaths", VObj [("html", VStr htmlReportPath);
                              ("json", VStr jsonReportPath)])].

(** *** The averaging policy in the words of the specification

    The score a run contributes to a metric: none when the run or its
    [scores] is missing (falsy) or the score is not a number.  Then the sum
    of the scores present, to which a run without the metric adds nothing. *)
Definition score_of (run : value) (metric : string) : option float :=
  if to_boolean run && to_boolean (get_prop run "scores") then
    match get_prop (get_prop run "scores") metric with
    | VNum x => Some x
    | _ => None
    end
  else None.

Definition metric_sum (metric : string) (runs : list value) : float :=
  fold_left (fun acc run =>
               match score_of run metric with
               | Some x => (acc + x)%float
               | None => acc
               end) runs 0%float.

(** The mean of a metric over all runs, rounded to two decimals, and the
    scores object holding the five means. *)
Definition metric_average (metric : string) (runs : list value) : float :=
  average_of (metric_sum metric runs) (length runs).

Definition average_scores (runs : list value) : object :=
  map (fun metric => (metric, VNum (metric_average metric runs))) metrics.

(** ** Result cache ([tests/helpers/audits/audit-cache.js]) *)

Module AuditCache.

Record t : Type := mk {
  cache : gmap string value;
  lighthouseRuns : gmap string (list value)
}.

(** [new AuditCache()]. *)
Definition new : t := {| cache := ∅; lighthouseRuns := ∅ |}.

Definition _getCacheKey (url state : string) : string := url ++ "#" ++ state.

(** [Map.prototype.get]: [undefined] for an absent key. *)
Definition map_get (m : gmap string value) (key : string) : value :=
  match m !! key with Some v => v | None => VUndefined end.

Definition get (c : t) (url state : string) : value :=
  let key := _getCacheKey url state in
  or_else (map_get (cache c) key) VNull.

(** A stored array is truthy, so [|| []] only replaces an absent entry. *)
Definition getLighthouseRuns (c : t) (url state : string) : list value :=
  let key := _getCacheKey url state in
  match lighthouseRuns c !! key with Some runs => runs | None => [] end.

Definition addLighthouseRun (c : t) (url : string) (results : value) (state : string) : t :=
  let key := _getCacheKey url state in
  let runs := getLighthouseRuns c url state in
  {| cache := cache c; lighthouseRuns := <[key := (runs ++ [results])%list]> (lighthouseRuns c) |}.

Definition set (c : t) (url : string) (results : value) (state : string) : t :=
  let key := _getCacheKey url state in
  {| cache := <[key := results]> (cache c); lighthouseRuns := lighthouseRuns c |}.

Definition has (c : t) (url state : string) : bool :=
  let key := _getCacheKey url state in
  match cache c !! key with Some _ => true | None => false end.

Definition hasEnoughLighthouseRuns (c : t) (url state : string) (requiredRuns : nat) : bool :=
  let runs := getLighthouseRuns c url state in
  (requiredRuns <=? length runs)%nat.

Definition clear (c : t) : t := new.

(** The delimiter of the key does not occur in [s]. *)
Fixpoint no_delimiter (s : string) : bool :=
  match s with
  | EmptyString => true
  | String ch s' => negb (Ascii.eqb ch "#"%char) && no_delimiter s'
  end.

End AuditCache.

(** ** Page-state classifier ([getPageState]) *)

(** A page handle as far as the helpers read it: its URL and the [li]
    elements of the todo list, each with or without the class [completed].
    The page does not change while an audit is running. *)
Record todo_item : Type := { completed : bool }.

Record page : Type := { page_url : string; todo_list : list todo_item }.

(** The two selectors the classifier queries. *)
Inductive selector : Type :=
| TodoListLi             (* ".todo-list li" *)
| TodoListLiCompleted.   (* ".todo-list li.completed" *)

(** [page.$$(selector)]. *)
Definition query_all (p : page) (sel : selector) : list todo_item :=
  match sel with
  | TodoListLi => todo_list p
  | TodoListLiCompleted => List.filter completed (todo_list p)
  end.

Module states.

Definition empty (p : page) : bool :=
  let items := query_all p TodoListLi in
  (length items =? 0)%nat.

Definition completed (p : page) : bool :=
  let completedItems := query_all p TodoListLiCompleted in
  let totalItems := query_all p TodoListLi in
  (0 <? length completedItems)%nat && (length completedItems =? length totalItems)%nat.

Definition mixed (p : page) : bool :=
  let completedItems := query_all p TodoListLiCompleted in
  let totalItems := query_all p TodoListLi in
  (0 <? length completedItems)%nat && (length completedItems <? length totalItems)%nat.

End states.

Definition getPageState (p : page) : string :=
  if states.empty p then "empty"
  else if states.completed p then "completed"
  else if states.mixed p then "mixed"
  else "with-items".

(** ** Test state (class [TestState]) *)

Module TestState.

Definition reset : list value := [].

(** [addResult] pushes the result (the progress line it prints is not
    modelled). *)
Definition addResult (testResults : list value) (result : value) : list value :=
  (testResults ++ [result])%list.

Definition getResults (testResults : list value) : list value := testResults.

End TestState.

(** ** Audit orchestrator ([runCombinedAudit]) *)

(** How an awaited call ends: with a value, or with a thrown value that
    rejects the promise. *)
Inductive completion (A : Type) : Type :=
| Normal (a : A)
| Throw (e : value).
Arguments Normal {A} a.
Arguments Throw {A} e.

Inductive engine : Type := Axe | Lighthouse.

(** One invocation of an external audit engine and how it ended. *)
Record event : Type := { ev_engine : engine; ev_outcome : completion value }.

(** The process-wide singletons and the record of the engine invocations
    made so far. *)
Record world : Type := {
  auditCache : AuditCache.t;
  testResults : list value;
  history : list event
}.

Record testInfo : Type := { file : value; title : value; project : value }.

(** The [TypeError] of a property read on [null] or [undefined]. *)
Definition TypeError (message : string) : value :=
  VObj [("name", VStr "TypeError"); ("message", VStr message)].

(** A computation that reads and updates the world and may throw; what it
    did to the world before throwing stays done. *)
Definition Audit (A : Type) : Type := world -> completion A * world.

Definition ret {A : Type} (a : A) : Audit A := fun w => (Normal a, w).

Definition throw {A : Type} (e : value) : Audit A := fun w => (Throw e, w).

Definition bind {A B : Type} (m : Audit A) (k : A -> Audit B) : Audit B :=
  fun w =>
    match m w with
    | (Normal a, w') => k a w'
    | (Throw e, w') => (Throw e, w')
    end.

Notation "'let*' x ':=' m 'in' k" := (bind m (fun x => k))
  (at level 10, x name, m at level 100, k at level 200).

Definition read_cache : Audit AuditCache.t := fun w => (Normal (auditCache w), w).

Definition update_cache (f : AuditCache.t -> AuditCache.t) : Audit unit :=
  fun w => (Normal tt, {| auditCache := f (auditCache w);
                          testResults := testResults w;
                          history := history w |}).

Definition addResult (result : value) : Audit unit :=
  fun w => (Normal tt, {| auditCache := auditCache w;
                          testResults := TestState.addResult (testResults w) result;
                          history := history w |}).

(** [await engine(page, config)]: the invocation is recorded with its
    outcome, and a rejection is thrown on. *)
Definition invoke (eng : engine) (run : list event -> completion value) : Audit value :=
  fun w =>
    let outcome := run (history w) in
    (outcome, {| auditCache := auditCache w;
                 testResults := testResults w;
                 history := (history w ++ [{| ev_engine := eng; ev_outcome := outcome |}])%list |}).

(** [v.k], which throws when [v] is [null] or [undefined]. *)
Definition member (v : value) (k : string) : Audit value :=
  match v with
  | VUndefined | VNull => throw (TypeError ("Cannot read properties of null or undefined: " ++ k))
  | _ => ret (get_prop v k)
  end.

(** [for (let i = 0; i < n; i++) body]. *)
Fixpoint for_loop (n : nat) (body : Audit unit) : Audit unit :=
  match n with
  | O => ret tt
  | S n' => let* _ := body in for_loop n' body
  end.

Definition REQUIRED_LIGHTHOUSE_RUNS : nat := 3.

Section Orchestrator.

(** The external audit engines.  What an invocation returns or throws may
    depend on the page, the configuration and everything the engines were
    asked before, so two runs of the same page may differ. *)
Variable runAccessibilityAudit : page -> value -> list event -> completion value.
Variable runLighthouseAudit : page -> value -> list event -> completion value.

(** [process.env]. *)
Variable process_env : gmap string string.

Definition env_is_true (name : string) : bool :=
  match process_env !! name with
  | Some v => String.eqb v "true"
  | None => false
  end.

(** The Axe part: cached, since the audit is deterministic. *)
Definition axe_audit (p : page) (config : value) (url state : string) : Audit value :=
  if env_is_true "ENABLE_AXE" then
    let* c := read_cache in
    if AuditCache.has c url state then
      let cachedResults := AuditCache.get c url state in
      member cachedResults "axeResults"
    else
      let* axeResults := invoke Axe (runAccessibilityAudit p config) in
      let* _ := update_cache
                  (fun c => AuditCache.set c url (VObj [("axeResults", axeResults)]) state) in
      ret axeResults
  else ret VNull.

(** The Lighthouse part: the missing runs are made one after the other and
    appended to the cache, then all cached runs are averaged. *)
Definition lighthouse_audit (p : page) (config : value) (url state : string) : Audit value :=
  if env_is_true "ENABLE_LIGHTHOUSE" then
    let* c := read_cache in
    let* _ :=
      if negb (AuditCache.hasEnoughLighthouseRuns c url state REQUIRED_LIGHTHOUSE_RUNS) then
        let remainingRuns :=
          REQUIRED_LIGHTHOUSE_RUNS - length (AuditCache.getLighthouseRuns c url state) in
        for_loop remainingRuns
          (let* result := invoke Lighthouse (runLighthouseAudit p config) in
           update_cache (fun c => AuditCache.addLighthouseRun c url result state))
      else ret tt in
    let* c := read_cache in
    let allRuns := AuditCache.getLighthouseRuns c url state in
    ret (calculateAverageLighthouseScores allRuns)
  else ret VNull.

Definition runCombinedAudit (p : page) (info : testInfo) (config : value) : Audit value :=
  let url := page_url p in
  let state := getPageState p in
  let* axeResults := axe_audit p config url state in
  let* lighthouseResults := lighthouse_audit p config url state in
  let testName := or_else (title info) (VStr ("Test for " ++ url)) in
  let result :=
    VObj [("testFile", file info);
          ("testName", testName);
          ("url", VStr url);
          ("lighthouseResults", lighthouseResults);
          ("axeResults", axeResults);
          ("testInfo", VObj [("title", testName);
                             ("url", VStr url);
                             ("project", project info)])] in
  let* _ := addResult result in
  ret result.

End Orchestrator.

(** The engine invocations of one call: what [history] gained. *)
Definition new_events (before after : world) : list event :=
  drop (length (history before)) (history after).

Definition is_lighthouse (ev : event) : bool :=
  match ev_engine ev with Lighthouse => true | Axe => false end.

Definition lighthouse_invocations (evs : list event) : nat :=
  length (List.filter is_lighthouse evs).

Definition succeeded (ev : event) : Prop :=
  match ev_outcome ev with Normal _ => True | Throw _ => False end.

(** How the engine invocations of a computation relate to the way it
    ended: after a normal end every invocation succeeded; after a throw
    either every invocation succeeded (the throw is the program's own), or
    the last invocation failed with the thrown value and the ones before it
    succeeded. *)
Definition trace_ok {A : Type} (out : completion A) (evs : list event) : Prop :=
  match out with
  | Normal _ => Forall succeeded evs
  | Throw e =>
      Forall succeeded evs \/
      exists evs0 ev, evs = (evs0 ++ [ev])%list /\ ev_outcome ev = Throw e /\
                      Forall succeeded evs0
  end.

(** ** A concrete setting

    Engines, environment and page used to run the orchestrator on concrete
    inputs. *)
Module Example.

Definition axe_engine : page -> value -> list event -> completion value :=
  fun _ _ _ =>
    Normal (VObj [("metrics", VObj [("total_violations", VNum 0)]);
                  ("violations", VObj [])]).

Definition lighthouse_engine : page -> value -> list event -> completion value :=
  fun _ _ _ => Normal (lighthouse_result 90 100 100 100 false "run.html" "run.json").

(** A Lighthouse engine whose second invocation fails. *)
Definition flaky_lighthouse_engine : page -> value -> list event -> completion value :=
  fun _ _ past =>
    if (lighthouse_invocations past =? 1)%nat then Throw (VStr "Lighthouse failed")
    else Normal (lighthouse_result 90 100 100 100 false "run.html" "run.json").

Definition env : gmap string string :=
  <["ENABLE_AXE" := "true"]> (<["ENABLE_LIGHTHOUSE" := "true"]> ∅).

Definition todo_page : page := {| page_url := "/todo"; todo_list := [] |}.

Definition info : testInfo :=
  {| file := VStr "tests/demo-todo-app.spec.js";
     title := VStr "should run the audits";
     project := VStr "chromium" |}.

Definition config : value := VObj [].

(** The world after [resetTestResults()]. *)
Definition fresh : world :=
  {| auditCache := AuditCache.new; testResults := TestState.reset; history := [] |}.

End Example.

(** ** Bookkeeping of the engine invocations, and the reset between runs *)

(** The results of the successful Lighthouse invocations among [evs], in
    the order they were made. *)
Definition run_results (evs : list event) : list value :=
  flat_map (fun ev =>
              match ev_engine ev, ev_outcome ev with
              | Lighthouse, Normal result => [result]
              | _, _ => []
              end) evs.

Definition axe_invocations (evs : list event) : nat :=
  length (List.filter (fun ev => negb (is_lighthouse ev)) evs).

(** [resetTestResults] of the helpers' entry module: the result collection
    and the cache are emptied.  (It also makes sure the three report
    directories exist; the file system is not part of the world.) *)
Definition resetTestResults : Audit unit :=
  fun w => (Normal tt, {| auditCache := AuditCache.clear (auditCache w);
                          testResults := TestState.reset;
                          history := history w |}).

(** An Axe engine whose result differs from one invocation to the next,
    and a world whose cache holds [null] for the key of the todo page. *)
Module Example2.

Definition varying_axe_engine : page -> value -> list event -> completion value :=
  fun _ _ past => Normal (VObj [("invocation", VNum (number_of_nat (length past)))]).

Definition other_page : page :=
  {| page_url := "/other"; todo_list := [{| completed := true |}] |}.

Definition null_entry : world :=
  {| auditCache := AuditCache.set AuditCache.new "/todo" VNull "empty";
     testResults := [];
     history := [] |}.

End Example2.

(** ** Lighthouse helper ([tests/helpers/audits/lighthouse-audit.js]) *)

Module LighthouseAudit.

(** [defaultLighthouseOptions.thresholds] of the configuration module.  A
    threshold is a number. *)
Definition defaultThresholds : list (string * float) :=
  [("performance", 80%float); ("accessibility", 90%float); ("best-practices", 90%float);
   ("seo", 90%float); ("pwa", 50%float)].

(** The [metrics] object: each category score of the engine (a number
    between 0 and 1) as a rounded percentage. *)
Definition metrics (performance accessibility best_practices seo : float)
  : list (string * float) :=
  [("performance", Math_round (performance * 100));
   ("accessibility", Math_round (accessibility * 100));
   ("best-practices", Math_round (best_practices * 100));
   ("seo", Math_round (seo * 100))].

Fixpoint metric (ms : list (string * float)) (key : string) : option float :=
  match ms with
  | [] => None
  | (k, v) :: ms' => if String.eqb k key then Some v else metric ms' key
  end.

(** [Object.entries(thresholds).some(([key, threshold]) => metrics[key] < threshold)]:
    for a key the metrics lack, [undefined < threshold] is false. *)
Definition thresholdBreached (thresholds ms : list (string * float)) : bool :=
  existsb (fun entry =>
             match metric ms (fst entry) with
             | Some score => (score <? snd entry)%float
             | None => false
             end) thresholds.

Definition is_category (key : string) : bool :=
  existsb (String.eqb key) ["performance"; "accessibility"; "best-practices"; "seo"].

End LighthouseAudit.

(** ** Device settings ([tests/helpers/config/audit-config.js]) *)

Module DeviceSettings.

Definition deviceConfigs : list (string * object) :=
  [("desktop", [("mobile", VBool false); ("deviceScaleFactor", VNum 1);
                ("width", VNum 1920); ("height", VNum 1080)]);
   ("mobile", [("mobile", VBool true); ("deviceScaleFactor", VNum 2);
               ("width", VNum 360); ("height", VNum 640)]);
   ("tablet", [("mobile", VBool true); ("deviceScaleFactor", VNum 2);
               ("width", VNum 768); ("height", VNum 1024)])].

(** [deviceConfigs[name]], spread: the preset's properties, or nothing when
    there is no preset of that name. *)
Fixpoint preset (configs : list (string * object)) (name : string) : object :=
  match configs with
  | [] => []
  | (k, settings) :: configs' => if String.eqb k name then settings else preset configs' name
  end.

(** A variable of [process.env] as a value: a string, or [undefined]. *)
Definition env_value (process_env : gmap string string) (name : string) : value :=
  match process_env !! name with Some v => VStr v | None => VUndefined end.

Section Parsing.

(** The built-ins [parseInt] and [parseFloat], applied to a variable of the
    environment (absent when unset). *)
Variable parseInt : option string -> float.
Variable parseFloat : option string -> float.

(** [defaultDeviceSettings]: the preset named by [LIGHTHOUSE_DEVICE_TYPE]
    (default [desktop]) is spread first, then the four settings are
    assigned from the other variables. *)
Definition defaultDeviceSettings (process_env : gmap string string) : object :=
  let name :=
    match or_else (env_value process_env "LIGHTHOUSE_DEVICE_TYPE") (VStr "desktop") with
    | VStr name => name
    | _ => "desktop"
    end in
  let settings := preset deviceConfigs name in
  let settings :=
    obj_set settings "mobile"
      (VBool (match process_env !! "LIGHTHOUSE_MOBILE" with
              | Some v => String.eqb v "true"
              | None => false
              end)) in
  let settings :=
    obj_set settings "deviceScaleFactor"
      (or_else (VNum (parseFloat (process_env !! "LIGHTHOUSE_DEVICE_SCALE"))) (VNum 1)) in
  let settings :=
    obj_set settings "width"
      (or_else (VNum (parseInt (process_env !! "LIGHTHOUSE_WIDTH"))) (VNum 1920)) in
  obj_set settings "height"
    (or_else (VNum (parseInt (process_env !! "LIGHTHOUSE_HEIGHT"))) (VNum 1080)).

End Parsing.

End DeviceSettings.

(** ** Axe metrics (the module required as [./audits/axe-audit]) *)

Module AxeAudit.

(** [v.impact === impact] for a violation [v]. *)
Definition has_impact (impact : string) (violation : object) : bool :=
  match obj_get violation "impact" with
  | VStr i => String.eqb i impact
  | _ => false
  end.

(** [impacts.includes(v.impact)]. *)
Definition impact_among (impacts : list string) (violation : object) : bool :=
  existsb (fun impact => has_impact impact violation) impacts.

Definition count_impact (impact : string) (violations : list object) : nat :=
  length (List.filter (has_impact impact) violations).

Record metrics : Type := {
  total_violations : nat;
  critical_violations : nat;
  serious_violations : nat;
  moderate_violations : nat;
  minor_violations : nat;
  passes : nat;
  total_tests : nat;
  has_critical_or_serious : bool;
  has_moderate_or_minor : bool
}.

(** The [metrics] object of [runAccessibilityAudit], from the violations
    and passes the engine reports. *)
Definition calculate_metrics (violations passed : list object) : metrics :=
  {| total_violations := length violations;
     critical_violations := count_impact "critical" violations;
     serious_violations := count_impact "serious" violations;
     moderate_violations := count_impact "moderate" violations;
     minor_violations := count_impact "minor" violations;
     passes := length passed;
     total_tests := length passed + length violations;
     has_critical_or_serious := existsb (impact_among ["critical"; "serious"]) violations;
     has_moderate_or_minor := existsb (impact_among ["moderate"; "minor"]) violations |}.

(** The three icons of [getStatusIcon]: a red cross, an orange warning
    sign, a green check. *)
Inductive status_icon : Type := RedCross | OrangeWarning | GreenCheck.

Definition getStatusIcon (m : metrics) : status_icon :=
  if has_critical_or_serious m then RedCross
  else if has_moderate_or_minor m then OrangeWarning
  else GreenCheck.

End AxeAudit.

(** ** Averages of whole-number scores

    The exact mean of [n] scores that add up to [total], rounded half up
    to two decimals: [k / 100] for the integer [k] nearest to
    [100 * total / n]. *)
Definition number_of_Z (z : Z) : float := PrimFloat.of_uint63 (Uint63.of_Z z).

Definition mean_rounded (total n : nat) : float :=
  (number_of_Z ((200 * Z.of_nat total + Z.of_nat n) / (2 * Z.of_nat n)) / 100)%float.

(** Exhaustive checks over the range of percentages: adding a score of at
    most [max_score] to a total of at most [max_total] is exact, and up to
    [max_runs] runs average to the rounded exact mean. *)
Definition sums_exact_below (max_total max_score : nat) : bool :=
  forallb (fun total =>
             forallb (fun score =>
                        PrimFloat.Leibniz.eqb
                          (number_of_Z total + number_of_Z score)%float
                          (number_of_Z (total + score)))
               (map Z.of_nat (seq 0 (S max_score))))
    (map Z.of_nat (seq 0 (S max_total))).

Definition averages_exact_upto (max_runs : nat) : bool :=
  forallb (fun n =>
             forallb (fun total =>
                        PrimFloat.Leibniz.eqb (average_of (number_of_Z total) n)
                          (number_of_Z ((200 * total + Z.of_nat n) / (2 * Z.of_nat n))
                           / 100)%float)
               (map Z.of_nat (seq 0 (S (100 * n)))))
    (seq 1 max_runs).

(** Runs described by what they score for a metric: a whole number of at
    most 100, or nothing.  [present_total] adds up the scores present. *)
Definition whole_number_score (metric : string) (run : value) (score : option nat) : Prop :=
  match score with
  | Some n => score_of run metric = Some (number_of_nat n) /\ n <= 100
  | None => score_of run metric = None
  end.

Definition present_total (scores : list (option nat)) : nat :=
  list_sum (map (fun score => match score with Some n => n | None => 0 end) scores).

(** A run as [runLighthouseAudit] returns it. *)
Definition engine_shaped (run : value) : Prop :=
  exists performance accessibility best_practices seo breached html json,
    run = lighthouse_result performance accessibility best_practices seo breached html json.

(** ** Timestamps ([tests/helpers/utils/file-utils.js]) *)

Module FileUtils.

(** [s.replace(/[:.]/g, '-')]. *)
Fixpoint replace_colons_and_dots (s : string) : string :=
  match s with
  | EmptyString => EmptyString
  | String ch s' =>
      String (if Ascii.eqb ch ":" || Ascii.eqb ch "." then "-"%char else ch)
        (replace_colons_and_dots s')
  end.

(** [s.replace(ch, replacement)] for a one-character pattern: only the
    first occurrence is replaced. *)
Fixpoint replace_first (ch : ascii) (replacement : string) (s : string) : string :=
  match s with
  | EmptyString => EmptyString
  | String a s' =>
      if Ascii.eqb a ch then replacement ++ s'
      else String a (replace_first ch replacement s')
  end.

(** [getFormattedTimestamp], from the text [now.toISOString()] returns. *)
Definition getFormattedTimestamp (iso : string) : string :=
  replace_first "Z" "" (replace_first "T" "-" (replace_colons_and_dots iso)).

(** [s.split(ch)] for a one-character separator. *)
Fixpoint split (ch : ascii) (s : string) : list string :=
  match s with
  | EmptyString => [EmptyString]
  | String a s' =>
      if Ascii.eqb a ch then EmptyString :: split ch s'
      else match split ch s' with
           | part :: parts => String a part :: parts
           | [] => [String a EmptyString]
           end
  end.

(** The branch [formatDisplayDate] takes: the seven fields it hands to
    [Date.UTC] when the timestamp has no time part after a [T] and splits
    into seven parts at the dashes; [None] when it falls back to
    [new Date(timestamp)]. *)
Definition custom_format_fields (timestamp : string) : option (list string) :=
  let time := nth_error (split "T" timestamp) 1 in
  let no_time :=
    match time with
    | Some t => String.eqb t ""
    | None => true
    end in
  if no_time then
    let parts := split "-" timestamp in
    if (length parts =? 7)%nat then Some parts else None
  else None.

(** The ISO text of a date whose fields are written [year], [month], ...:
    [YYYY-MM-DDTHH:mm:ss.sssZ]. *)
Definition iso_text (year month day hour minute second ms : string) : string :=
  year ++ "-" ++ month ++ "-" ++ day ++ "T" ++ hour ++ ":" ++ minute ++ ":" ++ second
  ++ "." ++ ms ++ "Z".

(** A text made of decimal digits only. *)
Fixpoint digits (s : string) : bool :=
  match s with
  | EmptyString => true
  | String ch s' =>
      (48 <=? nat_of_ascii ch)%nat && (nat_of_ascii ch <=? 57)%nat && digits s'
  end.

(** A character that is not a decimal digit, and a text without the
    character [ch]. *)
Definition not_digit (ch : ascii) : bool :=
  (nat_of_ascii ch <? 48)%nat || (57 <? nat_of_ascii ch)%nat.

Fixpoint lacks (ch : ascii) (s : string) : bool :=
  match s with
  | EmptyString => true
  | String a s' => negb (Ascii.eqb a ch) && lacks ch s'
  end.

End FileUtils.

(** * Properties *)

(** ** Numbers *)

Example Math_round_ties :
  Math_round 2.5 = 3%float /\ Math_round (-2.5) = (-2)%float /\
  Math_round 0.5 = 1%float /\ Math_round (-0.5) = PrimFloat.opp 0.
Proof. repeat split; reflexivity. Qed.

(** Scaling by 100 happens in binary64 before rounding: 201 / 200 * 100 is
    just below 100.5 and rounds down. *)
Example Math_round_scaled :
  Math_round (201 / 200 * 100) = 100%float /\ average_of 201 200 = 1%float /\
  average_of 271 3 = (9033 / 100)%float.
Proof. repeat split; reflexivity. Qed.

(** ** Objects *)

Lemma obj_get_set_eq (ps : object) (k : string) (v : value) :
  obj_get (obj_set ps k v) k = v.
Proof.
  induction ps as [|[k' v'] ps IH]; simpl.
  - now rewrite String.eqb_refl.
  - destruct (String.eqb k' k) eqn:E; simpl.
    + now rewrite String.eqb_refl.
    + now rewrite E.
Qed.

Lemma obj_get_set_ne (ps : object) (k k' : string) (v : value) :
  k <> k' -> obj_get (obj_set ps k v) k' = obj_get ps k'.
Proof.
  intros Hne. induction ps as [|[k0 v0] ps IH]; simpl.
  - destruct (String.eqb k k') eqn:E; [apply String.eqb_eq in E; contradiction | reflexivity].
  - destruct (String.eqb k0 k) eqn:E; simpl.
    + apply String.eqb_eq in E. subst k0.
      destruct (String.eqb k k') eqn:E'; [apply String.eqb_eq in E'; contradiction | reflexivity].
    + destruct (String.eqb k0 k'); [reflexivity | exact IH].
Qed.

Lemma keys_obj_set (ps : object) (k k' : string) (v : value) :
  In k' (keys (obj_set ps k v)) <-> In k' (keys ps) \/ k' = k.
Proof.
  induction ps as [|[k0 v0] ps IH]; simpl.
  - intuition congruence.
  - destruct (String.eqb k0 k) eqn:E; simpl.
    + apply String.eqb_eq in E. subst k0. intuition congruence.
    + rewrite IH. intuition congruence.
Qed.

(** ** Result cache *)

Module AuditCacheFacts.
Import AuditCache.

Lemma key_nil (state : string) : _getCacheKey "" state = String "#" state.
Proof. reflexivity. Qed.

Lemma key_cons (ch : ascii) (url state : string) :
  _getCacheKey (String ch url) state = String ch (_getCacheKey url state).
Proof. reflexivity. Qed.

Lemma key_has_delimiter (url state : string) :
  no_delimiter (_getCacheKey url state) = false.
Proof.
  induction url as [|ch url IH].
  - reflexivity.
  - rewrite key_cons. simpl. rewrite IH. apply andb_false_r.
Qed.

(** With no delimiter in either state, the key determines the pair: the
    state is what follows the last [#]. *)
Lemma key_injective (url1 state1 url2 state2 : string) :
  no_delimiter state1 = true -> no_delimiter state2 = true ->
  _getCacheKey url1 state1 = _getCacheKey url2 state2 ->
  url1 = url2 /\ state1 = state2.
Proof.
  intros H1 H2. revert url2.
  induction url1 as [|c1 url1 IH]; intros [|c2 url2] Heq;
    rewrite ?key_nil, ?key_cons in Heq.
  - injection Heq as ->. now split.
  - injection Heq as <- ->. rewrite key_has_delimiter in H1. discriminate.
  - injection Heq as -> <-. rewrite key_has_delimiter in H2. discriminate.
  - injection Heq as -> Heq. destruct (IH _ Heq) as [-> ->]. now split.
Qed.

Lemma key_distinct (url1 state1 url2 state2 : string) :
  no_delimiter state1 = true -> no_delimiter state2 = true ->
  (url1, state1) <> (url2, state2) ->
  _getCacheKey url1 state1 <> _getCacheKey url2 state2.
Proof.
  intros H1 H2 Hne Heq. apply Hne.
  destruct (key_injective _ _ _ _ H1 H2 Heq) as [-> ->]. reflexivity.
Qed.

Lemma get_set_same (c : t) (url state : string) (v : value) :
  get (set c url v state) url state = or_else v VNull.
Proof. unfold get, set, map_get. simpl. now rewrite lookup_insert_eq. Qed.

Lemma has_set_same (c : t) (url state : string) (v : value) :
  has (set c url v state) url state = true.
Proof. unfold has, set. simpl. now rewrite lookup_insert_eq. Qed.

Lemma getLighthouseRuns_add_same (c : t) (url state : string) (r : value) :
  getLighthouseRuns (addLighthouseRun c url r state) url state
  = (getLighthouseRuns c url state ++ [r])%list.
Proof. unfold getLighthouseRuns at 1, addLighthouseRun. simpl. now rewrite lookup_insert_eq. Qed.

Lemma getLighthouseRuns_set (c : t) (url state url' state' : string) (v : value) :
  getLighthouseRuns (set c url v state) url' state' = getLighthouseRuns c url' state'.
Proof. reflexivity. Qed.

End AuditCacheFacts.

Module AuditCacheClaims.
Import AuditCache AuditCacheFacts.

(** C2, as stated, fails: the key is the plain join [url + "#" + state], so
    two different pairs that differ only in where the [#] falls share one
    entry.  What is stored under ("/todo#x", "empty") is returned for
    ("/todo", "x#empty") by [get], [has] and [getLighthouseRuns]. *)
Lemma cache_key_collision :
  ("/todo#x", "empty") <> ("/todo", "x#empty") /\
  get (set new "/todo#x" (VStr "stored") "empty") "/todo" "x#empty" = VStr "stored" /\
  has (set new "/todo#x" (VStr "stored") "empty") "/todo" "x#empty" = true /\
  getLighthouseRuns (addLighthouseRun new "/todo#x" (VStr "run") "empty") "/todo" "x#empty"
  = [VStr "run"].
Proof.
  split; [discriminate|].
  repeat split; vm_compute; reflexivity.
Qed.

(** C2, amended: when neither state contains the delimiter [#], two
    different (url, state) pairs never collide.  Storing a result or a run
    under one pair leaves what [get], [has] and [getLighthouseRuns] return
    for the other pair unchanged; in a fresh cache they return [null],
    [false] and the empty list for it. *)
Theorem key_isolation (c : t) (url1 state1 url2 state2 : string) (v : value) :
  no_delimiter state1 = true -> no_delimiter state2 = true ->
  (url1, state1) <> (url2, state2) ->
  (get (set c url1 v state1) url2 state2 = get c url2 state2 /\
   has (set c url1 v state1) url2 state2 = has c url2 state2 /\
   getLighthouseRuns (set c url1 v state1) url2 state2 = getLighthouseRuns c url2 state2) /\
  (get (addLighthouseRun c url1 v state1) url2 state2 = get c url2 state2 /\
   has (addLighthouseRun c url1 v state1) url2 state2 = has c url2 state2 /\
   getLighthouseRuns (addLighthouseRun c url1 v state1) url2 state2
   = getLighthouseRuns c url2 state2) /\
  (get (set new url1 v state1) url2 state2 = VNull /\
   has (set new url1 v state1) url2 state2 = false /\
   getLighthouseRuns (addLighthouseRun new url1 v state1) url2 state2 = []).
Proof.
  intros H1 H2 Hne.
  pose proof (key_distinct _ _ _ _ H1 H2 Hne) as Hkey.
  unfold get, has, getLighthouseRuns, set, addLighthouseRun, map_get, new; simpl.
  rewrite !lookup_insert_ne by exact Hkey.
  rewrite !lookup_empty.
  repeat split; reflexivity.
Qed.

Lemma key_isolation_witness :
  get (set new "/todo" (VStr "stored") "empty") "/todo" "mixed" = VNull /\
  has (set new "/todo" (VStr "stored") "empty") "/other" "empty" = false.
Proof.
  split.
  - apply (key_isolation new "/todo" "empty" "/todo" "mixed" (VStr "stored"));
      [reflexivity | reflexivity | discriminate].
  - apply (key_isolation new "/todo" "empty" "/other" "empty" (VStr "stored"));
      [reflexivity | reflexivity | discriminate].
Defined.

(** C4, as stated, fails: [get] ends in [|| null], so a falsy last write
    (here the number 0) is not read back. *)
Lemma last_write_falsy_lost :
  get (set (set new "/todo" (VObj []) "empty") "/todo" (VNum 0) "empty") "/todo" "empty" = VNull /\
  VNull <> VNum 0.
Proof. split; [vm_compute; reflexivity | discriminate]. Qed.

(** C4, amended: after [set(key, A); set(key, B)], [get(key)] returns [B]
    when [B] is truthy (every object is) and [null] when [B] is falsy. *)
Theorem last_write_wins (c : t) (url state : string) (A B : value) :
  (to_boolean B = true ->
   get (set (set c url A state) url B state) url state = B) /\
  (to_boolean B = false ->
   get (set (set c url A state) url B state) url state = VNull).
Proof.
  rewrite get_set_same. unfold or_else.
  split; intros ->; reflexivity.
Qed.

Lemma last_write_wins_witness :
  get (set (set new "/todo" (VObj [("axeResults", VNull)]) "empty")
           "/todo" (VObj [("axeResults", VStr "B")]) "empty") "/todo" "empty"
  = VObj [("axeResults", VStr "B")].
Proof.
  apply (last_write_wins new "/todo" "empty"
           (VObj [("axeResults", VNull)]) (VObj [("axeResults", VStr "B")])).
  reflexivity.
Defined.

(** C9: storing a falsy value (null, 0, the empty string, ...) makes
    [has(key)] true while [get(key)] returns [null]: [has] being true does
    not imply that [get] is not [null]. *)
Theorem falsy_value_has_without_get (c : t) (url state : string) (v : value) :
  to_boolean v = false ->
  has (set c url v state) url state = true /\
  get (set c url v state) url state = VNull.
Proof.
  intros Hv. rewrite has_set_same, get_set_same. unfold or_else. rewrite Hv.
  split; reflexivity.
Qed.

Lemma falsy_value_has_without_get_witness :
  (has (set new "/todo" VNull "empty") "/todo" "empty" = true /\
   get (set new "/todo" VNull "empty") "/todo" "empty" = VNull) /\
  (has (set new "/todo" (VNum 0) "empty") "/todo" "empty" = true /\
   get (set new "/todo" (VNum 0) "empty") "/todo" "empty" = VNull) /\
  (has (set new "/todo" (VStr "") "empty") "/todo" "empty" = true /\
   get (set new "/todo" (VStr "") "empty") "/todo" "empty" = VNull).
Proof.
  repeat apply conj;
    apply falsy_value_has_without_get; reflexivity.
Defined.

End AuditCacheClaims.

(** ** Page-state classifier *)

Lemma filter_length_facts {A : Type} (f : A -> bool) (l : list A) :
  length (List.filter f l) <= length l /\
  (length (List.filter f l) = length l <-> forallb f l = true) /\
  (length (List.filter f l) = 0 <-> existsb f l = false).
Proof.
  induction l as [|a l (Hle & Hall & Hnone)]; simpl.
  - repeat split; auto.
  - destruct (f a); simpl.
    + split; [lia|]. split; [|split; [lia | discriminate]].
      rewrite <- Hall. lia.
    + split; [lia|]. split; [|exact Hnone].
      split; [lia | discriminate].
Qed.

(** The four labels contain no key delimiter. *)
Lemma page_state_no_delimiter (p : page) :
  AuditCache.no_delimiter (getPageState p) = true.
Proof.
  unfold getPageState.
  destruct (states.empty p), (states.completed p), (states.mixed p); reflexivity.
Qed.

(** C6: the classifier returns [empty] for an empty item list,
    [completed] when every item of a non-empty list is done, [mixed] when
    some but not all items are done, and [with-items] otherwise (a
    non-empty list with no item done). *)
Theorem getPageState_classifies (p : page) :
  (todo_list p = [] -> getPageState p = "empty") /\
  (todo_list p <> [] -> forallb completed (todo_list p) = true ->
   getPageState p = "completed") /\
  (existsb completed (todo_list p) = true -> forallb completed (todo_list p) = false ->
   getPageState p = "mixed") /\
  (todo_list p <> [] -> existsb completed (todo_list p) = false ->
   getPageState p = "with-items").
Proof.
  destruct (filter_length_facts completed (todo_list p)) as (Hle & Hall & Hnone).
  unfold getPageState, states.empty, states.completed, states.mixed, query_all.
  repeat split.
  - intros ->. reflexivity.
  - intros Hne Hdone. apply Hall in Hdone. rewrite Hdone.
    destruct (todo_list p) as [|i l] eqn:E; [contradiction|]. simpl length.
    now rewrite Nat.eqb_refl.
  - intros Hsome Hnotall.
    assert (length (List.filter completed (todo_list p)) <> 0) as Hpos.
    { intros H0. apply Hnone in H0. congruence. }
    assert (length (List.filter completed (todo_list p)) <> length (todo_list p)) as Hlt.
    { intros Heq. apply Hall in Heq. congruence. }
    destruct (Nat.eqb_spec (length (todo_list p)) 0) as [H0|_]; [lia|].
    destruct (Nat.ltb_spec 0 (length (List.filter completed (todo_list p)))) as [_|]; [|lia].
    destruct (Nat.eqb_spec (length (List.filter completed (todo_list p)))
                (length (todo_list p))) as [|_]; [contradiction|].
    destruct (Nat.ltb_spec (length (List.filter completed (todo_list p)))
                (length (todo_list p))) as [_|]; [reflexivity | lia].
  - intros Hne Hnone'. apply Hnone in Hnone'. rewrite Hnone'.
    destruct (todo_list p) as [|i l] eqn:E; [contradiction|]. reflexivity.
Qed.

Lemma getPageState_classifies_witness :
  getPageState {| page_url := "/todo"; todo_list := [] |} = "empty" /\
  getPageState {| page_url := "/todo";
                  todo_list := [{| completed := true |}; {| completed := true |}] |}
  = "completed" /\
  getPageState {| page_url := "/todo";
                  todo_list := [{| completed := true |}; {| completed := false |}] |}
  = "mixed" /\
  getPageState {| page_url := "/todo";
                  todo_list := [{| completed := false |}; {| completed := false |}] |}
  = "with-items".
Proof.
  repeat apply conj.
  - apply getPageState_classifies. reflexivity.
  - apply getPageState_classifies; [discriminate | reflexivity].
  - apply getPageState_classifies; reflexivity.
  - apply getPageState_classifies; [discriminate | reflexivity].
Defined.

(** ** Run averager *)

Section Totals.

Local Open Scope float_scope.

Lemma metrics_NoDup : NoDup metrics.
Proof. apply (bool_decide_unpack _). vm_compute. exact I. Qed.

Lemma add_scores_other (scores : value) (ms : list string) (totals : gmap string float)
    (m : string) :
  m ∉ ms -> add_scores scores ms totals !!! m = totals !!! m.
Proof.
  revert totals. induction ms as [|a ms IH]; intros totals Hm; [reflexivity|].
  apply not_elem_of_cons in Hm as [Hne Hm].
  unfold add_scores, forEach in *. simpl. rewrite IH by exact Hm.
  destruct (get_prop scores a); try reflexivity.
  now rewrite lookup_total_insert_ne.
Qed.

Lemma add_scores_member (scores : value) (ms : list string) (totals : gmap string float)
    (m : string) :
  NoDup ms -> m ∈ ms ->
  add_scores scores ms totals !!! m
  = match get_prop scores m with
    | VNum x => (totals !!! m) + x
    | _ => totals !!! m
    end.
Proof.
  revert totals. induction ms as [|a ms IH]; intros totals Hnd Hm.
  - now apply elem_of_nil in Hm.
  - apply NoDup_cons in Hnd as [Ha Hnd].
    change (add_scores scores (a :: ms) totals)
      with (add_scores scores ms
              (match get_prop scores a with
               | VNum x => <[a := (totals !!! a) + x]> totals
               | _ => totals
               end)).
    apply elem_of_cons in Hm as [->|Hm].
    + rewrite add_scores_other by exact Ha.
      destruct (get_prop scores a); try reflexivity.
      now rewrite lookup_total_insert_eq.
    + rewrite IH by assumption.
      assert (a <> m) as Hne by (intros ->; contradiction).
      destruct (get_prop scores a); try reflexivity.
      now rewrite lookup_total_insert_ne.
Qed.

Lemma add_run_scores_lookup (run : value) (totals : gmap string float) (m : string) :
  m ∈ metrics ->
  add_run_scores run totals !!! m
  = match score_of run m with
    | Some x => (totals !!! m) + x
    | None => totals !!! m
    end.
Proof.
  intros Hm. unfold add_run_scores, score_of.
  destruct (to_boolean run && to_boolean (get_prop run "scores")); [|reflexivity].
  rewrite add_scores_member by auto using metrics_NoDup.
  destruct (get_prop (get_prop run "scores") m); reflexivity.
Qed.

Lemma forEach_runs_lookup (runs : list value) (totals : gmap string float) (m : string) :
  m ∈ metrics ->
  forEach runs add_run_scores totals !!! m
  = fold_left (fun acc run =>
                 match score_of run m with
                 | Some x => acc + x
                 | None => acc
                 end) runs (totals !!! m).
Proof.
  intros Hm. revert totals. induction runs as [|run runs IH]; intros totals; [reflexivity|].
  unfold forEach in *. simpl. rewrite IH. now rewrite add_run_scores_lookup.
Qed.

(** The totals the code accumulates are the sums of the scores present. *)
Lemma sum_scores_lookup (runs : list value) (m : string) :
  In m metrics -> sum_scores runs !!! m = metric_sum m runs.
Proof.
  intros Hm. unfold sum_scores, metric_sum.
  rewrite forEach_runs_lookup by (now apply list_elem_of_In).
  f_equal. simpl in Hm. intuition subst; vm_compute; reflexivity.
Qed.

End Totals.

Lemma average_nonempty (runs : list value) :
  runs <> [] ->
  calculateAverageLighthouseScores runs
  = VObj (obj_set
            (obj_set (own_props (List.last runs VUndefined)) "scores"
               (VObj (average_scores runs)))
            "runs" (VNum (number_of_nat (length runs)))).
Proof.
  intros Hne. unfold calculateAverageLighthouseScores.
  destruct runs as [|run runs]; [contradiction|].
  change (length (run :: runs) =? 0)%nat with false. cbv iota.
  do 3 f_equal.
  unfold average_scores, metric_average, metrics. cbn [map].
  rewrite <- !sum_scores_lookup by (simpl; tauto).
  generalize (sum_scores (run :: runs)). intros totals. reflexivity.
Qed.

Lemma average_get_scores (runs : list value) :
  runs <> [] ->
  get_prop (calculateAverageLighthouseScores runs) "scores" = VObj (average_scores runs).
Proof.
  intros Hne. rewrite average_nonempty by exact Hne. unfold get_prop. simpl own_props.
  rewrite obj_get_set_ne by discriminate. apply obj_get_set_eq.
Qed.

Lemma average_scores_get (runs : list value) (metric : string) :
  In metric metrics ->
  obj_get (average_scores runs) metric = VNum (metric_average metric runs).
Proof.
  intros Hm. simpl in Hm. intuition subst; reflexivity.
Qed.

Lemma metric_sum_app (metric : string) (l1 l2 : list value) :
  metric_sum metric (l1 ++ l2)
  = fold_left (fun acc run =>
                 match score_of run metric with
                 | Some x => (acc + x)%float
                 | None => acc
                 end) l2 (metric_sum metric l1).
Proof. unfold metric_sum. apply fold_left_app. Qed.

Lemma metric_sum_skip (metric : string) (l1 l2 : list value) (run : value) :
  score_of run metric = None ->
  metric_sum metric (l1 ++ run :: l2) = metric_sum metric (l1 ++ l2).
Proof.
  intros Hnone. rewrite !metric_sum_app. simpl. now rewrite Hnone.
Qed.

(** *** Whole-number scores: the binary64 result against the exact mean *)

Lemma sums_exact : sums_exact_below 1000 100 = true.
Proof. vm_compute. reflexivity. Qed.

Lemma averages_exact : averages_exact_upto 10 = true.
Proof. vm_compute. reflexivity. Qed.

Lemma sums_exact_below_spec (max_total max_score total score : nat) :
  sums_exact_below max_total max_score = true ->
  total <= max_total -> score <= max_score ->
  (number_of_nat total + number_of_nat score)%float = number_of_nat (total + score).
Proof.
  unfold sums_exact_below. intros Hcheck Htotal Hscore.
  rewrite forallb_forall in Hcheck.
  assert (In (Z.of_nat total) (map Z.of_nat (seq 0 (S max_total)))) as Hin1
    by (apply in_map, in_seq; lia).
  specialize (Hcheck _ Hin1). rewrite forallb_forall in Hcheck.
  assert (In (Z.of_nat score) (map Z.of_nat (seq 0 (S max_score)))) as Hin2
    by (apply in_map, in_seq; lia).
  specialize (Hcheck _ Hin2). apply FloatAxioms.Leibniz.eqb_spec in Hcheck.
  unfold number_of_nat. rewrite Nat2Z.inj_add. exact Hcheck.
Qed.

Lemma averages_exact_upto_spec (max_runs total n : nat) :
  averages_exact_upto max_runs = true ->
  1 <= n <= max_runs -> total <= 100 * n ->
  average_of (number_of_nat total) n = mean_rounded total n.
Proof.
  unfold averages_exact_upto. intros Hcheck Hn Htotal.
  rewrite forallb_forall in Hcheck.
  assert (In n (seq 1 max_runs)) as Hin1 by (apply in_seq; lia).
  specialize (Hcheck _ Hin1). rewrite forallb_forall in Hcheck.
  assert (In (Z.of_nat total) (map Z.of_nat (seq 0 (S (100 * n))))) as Hin2
    by (apply in_map, in_seq; lia).
  specialize (Hcheck _ Hin2). apply FloatAxioms.Leibniz.eqb_spec in Hcheck.
  exact Hcheck.
Qed.

Lemma metric_sum_present (metric : string) (runs : list value)
    (present : list (option nat)) :
  Forall2 (whole_number_score metric) runs present ->
  forall total, total + 100 * length runs <= 1100 ->
  fold_left (fun acc run =>
               match score_of run metric with
               | Some x => (acc + x)%float
               | None => acc
               end) runs (number_of_nat total)
  = number_of_nat (total + present_total present) /\
  present_total present <= 100 * length runs.
Proof.
  induction 1 as [|run score runs present Hscore _ IH]; intros total Hbound.
  - unfold present_total. simpl. rewrite Nat.add_0_r. split; [reflexivity | lia].
  - cbn [length] in Hbound. cbn [fold_left].
    change (present_total (score :: present))
      with (match score with Some n => n | None => 0 end + present_total present).
    cbn [length]. destruct score as [n|]; simpl in Hscore.
    + destruct Hscore as [-> Hn].
      rewrite (sums_exact_below_spec 1000 100 total n sums_exact) by lia.
      destruct (IH (total + n)) as [Hsum Hle]; [lia|].
      rewrite Hsum. split; [f_equal; lia | lia].
    + rewrite Hscore. destruct (IH total) as [Hsum Hle]; [lia|].
      rewrite Hsum. split; [reflexivity | lia].
Qed.

(** Up to ten runs, each scoring a whole number or nothing: the code's
    average is the exact mean over all the runs, rounded half up. *)
Lemma metric_average_present (metric : string) (runs : list value)
    (present : list (option nat)) :
  1 <= length runs <= 10 ->
  Forall2 (whole_number_score metric) runs present ->
  metric_average metric runs = mean_rounded (present_total present) (length runs).
Proof.
  intros Hlen Hscores.
  destruct (metric_sum_present metric runs present Hscores 0) as [Hsum Hle]; [lia|].
  unfold metric_average, metric_sum. change 0%float with (number_of_nat 0).
  rewrite Hsum. cbn [Nat.add].
  now rewrite (averages_exact_upto_spec 10 _ _ averages_exact).
Qed.

Lemma average_score (runs : list value) (metric : string) :
  runs <> [] -> In metric metrics ->
  get_prop (get_prop (calculateAverageLighthouseScores runs) "scores") metric
  = VNum (Math_round (metric_sum metric runs / number_of_nat (length runs) * 100) / 100)%float.
Proof.
  intros Hne Hm. rewrite average_get_scores by exact Hne.
  unfold get_prop. cbn [own_props]. now rewrite average_scores_get.
Qed.

Lemma average_score_present (runs : list value) (metric : string)
    (present : list (option nat)) :
  In metric metrics -> 1 <= length runs <= 10 ->
  Forall2 (whole_number_score metric) runs present ->
  get_prop (get_prop (calculateAverageLighthouseScores runs) "scores") metric
  = VNum (mean_rounded (present_total present) (length runs)).
Proof.
  intros Hm Hlen Hscores.
  rewrite average_get_scores by (intros ->; simpl in Hlen; lia).
  unfold get_prop. cbn [own_props]. rewrite average_scores_get by exact Hm.
  now rewrite (metric_average_present metric runs present).
Qed.

(** C1: averaging the three runs whose scores are [{performance: 80}],
    [{performance: 90}] and [{performance: 100}] gives a performance score of
    90 and a [runs] count of 3. *)
Theorem average_three_runs :
  let result :=
    calculateAverageLighthouseScores
      [run_with_scores [("performance", VNum 80)];
       run_with_scores [("performance", VNum 90)];
       run_with_scores [("performance", VNum 100)]] in
  get_prop (get_prop result "scores") "performance" = VNum 90 /\
  get_prop result "runs" = VNum 3.
Proof. vm_compute. split; reflexivity. Qed.

(** The averager reads the scores under the [scores] field only: a score
    at the top level of a run, or under the [metrics] field the Lighthouse
    helper fills, is not counted. *)
Lemma average_reads_scores_field_only :
  get_prop (get_prop (calculateAverageLighthouseScores
                        [VObj [("performance", VNum 80)];
                         VObj [("performance", VNum 90)];
                         VObj [("performance", VNum 100)]]) "scores") "performance"
  = VNum 0 /\
  get_prop (calculateAverageLighthouseScores
              [lighthouse_result 80 90 100 100 false "a.html" "a.json";
               lighthouse_result 90 90 100 100 false "b.html" "b.json";
               lighthouse_result 100 90 100 100 false "c.html" "c.json"]) "scores"
  = VObj [("performance", VNum 0); ("accessibility", VNum 0); ("bestPractices", VNum 0);
          ("seo", VNum 0); ("pwa", VNum 0)].
Proof. vm_compute. split; reflexivity. Qed.

(** C5: for a non-empty run list the averaged score of a tracked metric is
    the sum of the scores present, divided by the number of all the runs,
    then rounded: a run without the metric leaves the sum as it is and
    still counts in the denominator.  For up to ten runs that score whole
    numbers or nothing, the result is the exact mean over all the runs,
    rounded half up to two decimals.  Averaging [{performance: 90}] and
    [{}] gives performance 45. *)
Theorem missing_metric_counts_in_denominator (runs : list value) (metric : string) :
  runs <> [] -> In metric metrics ->
  get_prop (get_prop (calculateAverageLighthouseScores runs) "scores") metric
  = VNum (Math_round (metric_sum metric runs / number_of_nat (length runs) * 100) / 100)%float /\
  (forall l1 run l2,
      runs = (l1 ++ run :: l2)%list -> score_of run metric = None ->
      metric_sum metric runs = metric_sum metric (l1 ++ l2)%list /\
      length runs = S (length (l1 ++ l2)%list) /\
      get_prop (get_prop (calculateAverageLighthouseScores runs) "scores") metric
      = VNum (Math_round (metric_sum metric (l1 ++ l2)%list
                          / number_of_nat (S (length (l1 ++ l2)%list)) * 100) / 100)%float) /\
  (forall present,
      length runs <= 10 -> Forall2 (whole_number_score metric) runs present ->
      get_prop (get_prop (calculateAverageLighthouseScores runs) "scores") metric
      = VNum (mean_rounded (present_total present) (length runs))) /\
  get_prop (get_prop (calculateAverageLighthouseScores
                        [run_with_scores [("performance", VNum 90)];
                         run_with_scores []]) "scores") "performance"
  = VNum 45.
Proof.
  intros Hne Hm.
  pose proof (average_score runs metric Hne Hm) as Havg.
  split; [exact Havg|]. split; [|split].
  - intros l1 run l2 Hruns Hnone.
    assert (metric_sum metric runs = metric_sum metric (l1 ++ l2)%list) as Hsum
      by (subst runs; now apply metric_sum_skip).
    assert (length runs = S (length (l1 ++ l2)%list)) as Hlen
      by (subst runs; rewrite !length_app; simpl; lia).
    split; [exact Hsum|]. split; [exact Hlen|].
    now rewrite Havg, Hsum, Hlen.
  - intros present Hlen Hscores. apply average_score_present; [exact Hm| |exact Hscores].
    destruct runs; [contradiction | simpl in *; lia].
  - vm_compute. reflexivity.
Qed.

Lemma missing_metric_counts_in_denominator_witness :
  get_prop (get_prop (calculateAverageLighthouseScores
                        [run_with_scores [("performance", VNum 90)];
                         VObj [];
                         run_with_scores [("performance", VNum 91)]])
              "scores") "performance"
  = VNum (mean_rounded (90 + 0 + 91) 3) /\
  mean_rounded (90 + 0 + 91) 3 = (6033 / 100)%float /\
  get_prop (get_prop (calculateAverageLighthouseScores
                        [run_with_scores [("performance", VNum 90)]; VObj []])
              "scores") "performance"
  = VNum 45.
Proof.
  destruct (missing_metric_counts_in_denominator
              [run_with_scores [("performance", VNum 90)];
               VObj [];
               run_with_scores [("performance", VNum 91)]] "performance")
    as (_ & _ & Hwhole & _).
  - discriminate.
  - simpl. tauto.
  - destruct (missing_metric_counts_in_denominator
                [run_with_scores [("performance", VNum 90)]; VObj []] "performance")
      as (_ & _ & Hwhole2 & _).
    + discriminate.
    + simpl. tauto.
    + split; [|split; [reflexivity|]].
      * apply (Hwhole [Some 90; None; Some 91]); [simpl; lia|].
        repeat constructor.
      * apply (Hwhole2 [Some 90; None]); [simpl; lia|].
        repeat constructor.
Defined.

(** C8: the averager returns [null] for the empty list; for a non-empty
    list the result has the properties of the last run (every one except
    [scores] and [runs], and no others), under [scores] the five averaged
    scores (for each metric the sum of the scores present divided by the
    number of runs, rounded; the exact mean rounded half up for up to ten
    runs of whole-number scores), and the number of runs under [runs]. *)
Theorem average_carries_last_run (runs : list value) :
  calculateAverageLighthouseScores [] = VNull /\
  (runs <> [] ->
   let result := calculateAverageLighthouseScores runs in
   let last_run := List.last runs VUndefined in
   (forall k, k <> "scores" -> k <> "runs" -> get_prop result k = get_prop last_run k) /\
   (forall k, In k (keys (own_props result)) <->
              In k (keys (own_props last_run)) \/ k = "scores" \/ k = "runs") /\
   keys (own_props (get_prop result "scores"))
   = ["performance"; "accessibility"; "bestPractices"; "seo"; "pwa"] /\
   (forall metric,
       In metric metrics ->
       get_prop (get_prop result "scores") metric
       = VNum (Math_round (metric_sum metric runs / number_of_nat (length runs) * 100)
               / 100)%float) /\
   (forall metric present,
       In metric metrics -> length runs <= 10 ->
       Forall2 (whole_number_score metric) runs present ->
       get_prop (get_prop result "scores") metric
       = VNum (mean_rounded (present_total present) (length runs))) /\
   get_prop result "runs" = VNum (number_of_nat (length runs))).
Proof.
  split; [reflexivity|]. intros Hne result last_run.
  subst result last_run. repeat split.
  - intros k Hscores Hruns. rewrite average_nonempty by exact Hne.
    unfold get_prop. simpl own_props.
    rewrite !obj_get_set_ne by congruence. reflexivity.
  - rewrite average_nonempty by exact Hne. simpl own_props.
    rewrite !keys_obj_set. tauto.
  - rewrite average_nonempty by exact Hne. simpl own_props.
    rewrite !keys_obj_set. tauto.
  - now rewrite average_get_scores by exact Hne.
  - intros metric Hm. now apply average_score.
  - intros metric present Hm Hlen Hscores.
    apply average_score_present; [exact Hm| |exact Hscores].
    destruct runs; [contradiction | simpl in *; lia].
  - rewrite average_nonempty by exact Hne. unfold get_prop. simpl own_props.
    apply obj_get_set_eq.
Qed.

Lemma average_carries_last_run_witness :
  let runs := [VObj [("scores", VObj [("performance", VNum 80)]);
                     ("reportPaths", VStr "first.html")];
               VObj [("scores", VObj [("performance", VNum 100)]);
                     ("reportPaths", VStr "last.html")]] in
  get_prop (calculateAverageLighthouseScores runs) "reportPaths" = VStr "last.html" /\
  get_prop (calculateAverageLighthouseScores runs) "runs" = VNum 2 /\
  get_prop (get_prop (calculateAverageLighthouseScores runs) "scores") "performance"
  = VNum 90 /\
  get_prop (get_prop (calculateAverageLighthouseScores runs) "scores") "seo" = VNum 0.
Proof.
  intros runs.
  destruct (average_carries_last_run runs) as [_ H].
  destruct H as (Hcopy & _ & _ & _ & Hwhole & Hcount); [discriminate|].
  split; [|split; [|split]].
  - rewrite Hcopy by discriminate. reflexivity.
  - rewrite Hcount. reflexivity.
  - rewrite (Hwhole "performance" [Some 80; Some 100]);
      [reflexivity | simpl; tauto | simpl; lia | repeat constructor].
  - rewrite (Hwhole "seo" [None; None]);
      [reflexivity | simpl; tauto | simpl; lia | repeat constructor].
Defined.

(** C10: for a non-empty run list the [scores] object of the result has
    exactly the keys performance, accessibility, bestPractices, seo and pwa,
    each bound to a number, whatever keys the runs carry. *)
Theorem scores_have_the_five_keys (runs : list value) :
  runs <> [] ->
  let scores := get_prop (calculateAverageLighthouseScores runs) "scores" in
  keys (own_props scores)
  = ["performance"; "accessibility"; "bestPractices"; "seo"; "pwa"] /\
  (forall metric, In metric (keys (own_props scores)) ->
                  is_number (get_prop scores metric) = true).
Proof.
  intros Hne scores. subst scores. rewrite average_get_scores by exact Hne.
  split; [reflexivity|].
  intros metric Hm. unfold get_prop. simpl own_props.
  rewrite average_scores_get by exact Hm. reflexivity.
Qed.

Lemma scores_have_the_five_keys_witness :
  keys (own_props (get_prop (calculateAverageLighthouseScores
                               [lighthouse_result 80 90 100 100 false "a.html" "a.json"])
                     "scores"))
  = ["performance"; "accessibility"; "bestPractices"; "seo"; "pwa"].
Proof.
  apply (scores_have_the_five_keys
           [lighthouse_result 80 90 100 100 false "a.html" "a.json"]).
  discriminate.
Defined.

(** ** Audit orchestrator *)

Lemma new_events_app (w w' : world) (evs : list event) :
  history w' = (history w ++ evs)%list -> new_events w w' = evs.
Proof. unfold new_events. intros ->. apply drop_app_length. Qed.

Lemma lighthouse_invocations_app (evs1 evs2 : list event) :
  lighthouse_invocations (evs1 ++ evs2)%list
  = lighthouse_invocations evs1 + lighthouse_invocations evs2.
Proof. unfold lighthouse_invocations. now rewrite List.filter_app, length_app. Qed.

Lemma trace_ok_failure {A : Type} (out : completion A) (evs : list event)
    (ev : event) (e : value) :
  trace_ok out evs -> In ev evs -> ev_outcome ev = Throw e -> out = Throw e.
Proof.
  intros Hok Hin Hev.
  assert (forall l, Forall succeeded l -> In ev l -> False) as Hcontra.
  { intros l Hall Hl. rewrite List.Forall_forall in Hall. specialize (Hall _ Hl).
    unfold succeeded in Hall. now rewrite Hev in Hall. }
  destruct out as [a|e']; simpl in Hok.
  - exfalso. eauto.
  - destruct Hok as [Hall | (evs0 & ev' & -> & Hev' & Hall)].
    + exfalso. eauto.
    + apply in_app_or in Hin as [Hin|[<-|[]]].
      * exfalso. eauto.
      * congruence.
Qed.

(** Sequencing: the invocations of [m] followed by those of the
    continuation. *)
Lemma trace_ok_seq {A B : Type} (a : A) (out : completion B) (evs1 evs2 : list event) :
  trace_ok (Normal a) evs1 -> trace_ok out evs2 -> trace_ok out (evs1 ++ evs2)%list.
Proof.
  simpl. intros H1 H2. destruct out as [b|e]; simpl in *.
  - apply Forall_app. now split.
  - destruct H2 as [H2 | (evs0 & ev & -> & Hev & H2)].
    + left. apply Forall_app. now split.
    + right. exists (evs1 ++ evs0)%list, ev. rewrite app_assoc.
      repeat split; trivial. apply Forall_app. now split.
Qed.

Section OrchestratorFacts.

Variable runAccessibilityAudit : page -> value -> list event -> completion value.
Variable runLighthouseAudit : page -> value -> list event -> completion value.
Variable process_env : gmap string string.

(** The Axe part invokes no Lighthouse engine, and touches neither the
    cached runs nor the result collection. *)
Lemma axe_audit_spec (p : page) (config : value) (url state : string)
    (w w' : world) (out : completion value) :
  axe_audit runAccessibilityAudit process_env p config url state w = (out, w') ->
  testResults w' = testResults w /\
  AuditCache.lighthouseRuns (auditCache w') = AuditCache.lighthouseRuns (auditCache w) /\
  exists evs, history w' = (history w ++ evs)%list /\
              lighthouse_invocations evs = 0 /\ trace_ok out evs.
Proof.
  unfold axe_audit.
  destruct (env_is_true process_env "ENABLE_AXE").
  - unfold bind, read_cache.
    destruct (AuditCache.has (auditCache w) url state).
    + unfold member.
      destruct (AuditCache.get (auditCache w) url state);
        unfold throw, ret; intros [= <- <-]; repeat split; trivial;
        exists []; rewrite app_nil_r; simpl; auto.
    + unfold invoke.
      destruct (runAccessibilityAudit p config (history w)) as [a|e] eqn:E;
        unfold update_cache, ret; simpl; intros [= <- <-]; simpl; repeat split; trivial.
      * eexists. split; [reflexivity|]. split; [reflexivity|].
        repeat constructor.
      * eexists. split; [reflexivity|]. split; [reflexivity|].
        right. exists [], {| ev_engine := Axe; ev_outcome := Throw e |}.
        repeat split; auto.
  - unfold ret. intros [= <- <-]. repeat split; trivial.
    exists []. rewrite app_nil_r. simpl. auto.
Qed.

(** The loop of Lighthouse runs: every invocation is a Lighthouse one, at
    most [n] are made, and a loop that ends normally made exactly [n] and
    appended [n] runs to the cache entry. *)
Lemma lighthouse_loop_spec (p : page) (config : value) (url state : string) (n : nat) :
  forall (w w' : world) (out : completion unit),
  for_loop n
    (let* result := invoke Lighthouse (runLighthouseAudit p config) in
     update_cache (fun c => AuditCache.addLighthouseRun c url result state)) w
  = (out, w') ->
  testResults w' = testResults w /\
  exists evs, history w' = (history w ++ evs)%list /\
              lighthouse_invocations evs = length evs /\
              length evs <= n /\
              trace_ok out evs /\
              (forall u, out = Normal u ->
                 length evs = n /\
                 length (AuditCache.getLighthouseRuns (auditCache w') url state)
                 = length (AuditCache.getLighthouseRuns (auditCache w) url state) + n).
Proof.
  induction n as [|n IH]; intros w w' out; simpl for_loop.
  - unfold ret. intros [= <- <-]. split; [reflexivity|].
    exists []. rewrite app_nil_r. simpl. repeat split; auto.
  - unfold bind at 1. unfold bind at 1. unfold invoke.
    destruct (runLighthouseAudit p config (history w)) as [r|e] eqn:E.
    + unfold update_cache at 1. cbn [auditCache testResults history].
      intros Hrest. apply IH in Hrest as (Hres & evs & Hhist & Hcount & Hle & Hok & Hnormal).
      cbn [auditCache testResults history] in *.
      split; [exact Hres|].
      exists ({| ev_engine := Lighthouse; ev_outcome := Normal r |} :: evs).
      split; [rewrite Hhist, <- app_assoc; reflexivity|].
      split; [unfold lighthouse_invocations in *; simpl; now rewrite Hcount|].
      split; [simpl; lia|].
      split.
      * apply (trace_ok_seq tt out [_] evs); [|exact Hok].
        repeat constructor.
      * intros u Hu. destruct (Hnormal u Hu) as [Hlen Hruns].
        split; [simpl; now rewrite Hlen|].
        rewrite Hruns, AuditCacheFacts.getLighthouseRuns_add_same, length_app. simpl. lia.
    + intros [= <- <-]. cbn [auditCache testResults history].
      split; [reflexivity|].
      exists [{| ev_engine := Lighthouse; ev_outcome := Throw e |}].
      split; [reflexivity|]. split; [reflexivity|]. split; [simpl; lia|].
      split; [|discriminate].
      right. exists [], {| ev_engine := Lighthouse; ev_outcome := Throw e |}.
      repeat split; auto.
Qed.

Lemma lighthouse_audit_spec (p : page) (config : value) (url state : string)
    (w w' : world) (out : completion value) :
  lighthouse_audit runLighthouseAudit process_env p config url state w = (out, w') ->
  testResults w' = testResults w /\
  exists evs, history w' = (history w ++ evs)%list /\
              trace_ok out evs /\
              (env_is_true process_env "ENABLE_LIGHTHOUSE" = true ->
               let k := length (AuditCache.getLighthouseRuns (auditCache w) url state) in
               lighthouse_invocations evs <= 3 - k /\
               (forall r, out = Normal r ->
                  lighthouse_invocations evs = 3 - k /\
                  3 <= length (AuditCache.getLighthouseRuns (auditCache w') url state))).
Proof.
  unfold lighthouse_audit.
  destruct (env_is_true process_env "ENABLE_LIGHTHOUSE").
  - unfold bind at 1. unfold read_cache at 1.
    unfold AuditCache.hasEnoughLighthouseRuns, REQUIRED_LIGHTHOUSE_RUNS.
    destruct (Nat.leb_spec 3 (length (AuditCache.getLighthouseRuns (auditCache w) url state)))
      as [Hk|Hk]; cbn [negb].
    + unfold bind, ret, read_cache. intros [= <- <-]. split; [reflexivity|].
      exists []. rewrite app_nil_r. split; [reflexivity|]. split; [constructor|].
      intros _. change (lighthouse_invocations []) with 0.
      split; [lia|]. intros r _. split; lia.
    + unfold bind at 1.
      destruct (for_loop _ _ w) as [[u|e] w1] eqn:Hloop;
        apply lighthouse_loop_spec in Hloop
          as (Hres & evs & Hhist & Hcount & Hle & Hok & Hnormal).
      * unfold bind, read_cache, ret. intros [= <- <-].
        destruct (Hnormal u eq_refl) as [Hlen Hruns].
        split; [exact Hres|]. exists evs.
        split; [exact Hhist|]. split; [exact Hok|].
        intros _. split; [lia|]. intros r _. split; lia.
      * intros [= <- <-]. split; [exact Hres|]. exists evs.
        split; [exact Hhist|]. split; [exact Hok|].
        intros _. split; [lia | discriminate].
  - unfold ret. intros [= <- <-]. split; [reflexivity|].
    exists []. rewrite app_nil_r. split; [reflexivity|]. split; [constructor|].
    discriminate.
Qed.

Lemma runCombinedAudit_spec (p : page) (info : testInfo) (config : value)
    (w w' : world) (out : completion value) :
  runCombinedAudit runAccessibilityAudit runLighthouseAudit process_env p info config w
  = (out, w') ->
  exists evs, history w' = (history w ++ evs)%list /\
              trace_ok out evs /\
              match out with
              | Normal result => testResults w' = (testResults w ++ [result])%list
              | Throw _ => testResults w' = testResults w
              end /\
              (env_is_true process_env "ENABLE_LIGHTHOUSE" = true ->
               let k := length (AuditCache.getLighthouseRuns (auditCache w)
                                  (page_url p) (getPageState p)) in
               lighthouse_invocations evs <= 3 - k /\
               (forall r, out = Normal r ->
                  lighthouse_invocations evs = 3 - k /\
                  3 <= length (AuditCache.getLighthouseRuns (auditCache w')
                                 (page_url p) (getPageState p)))).
Proof.
  unfold runCombinedAudit. cbv zeta. unfold bind at 1.
  destruct (axe_audit _ _ _ _ _ _ w) as [[axeResults|e] w1] eqn:Haxe;
    apply axe_audit_spec in Haxe as (Hres1 & Hruns1 & evs1 & Hhist1 & Hcount1 & Hok1).
  - unfold bind at 1.
    destruct (lighthouse_audit _ _ _ _ _ _ w1) as [[lighthouseResults|e] w2] eqn:Hlh;
      apply lighthouse_audit_spec in Hlh as (Hres2 & evs2 & Hhist2 & Hok2 & Hlh);
      assert (AuditCache.getLighthouseRuns (auditCache w1) (page_url p) (getPageState p)
              = AuditCache.getLighthouseRuns (auditCache w) (page_url p) (getPageState p))
        as Hsame by (unfold AuditCache.getLighthouseRuns; now rewrite Hruns1);
      rewrite Hsame in Hlh.
    + unfold bind, addResult, ret. intros [= <- <-]. cbn [auditCache testResults history].
      exists (evs1 ++ evs2)%list.
      split; [rewrite Hhist2, Hhist1, <- app_assoc; reflexivity|].
      split; [apply (trace_ok_seq axeResults); assumption|].
      split; [unfold TestState.addResult; now rewrite Hres2, Hres1|].
      intros Henv. destruct (Hlh Henv) as [Hle Hnormal].
      rewrite lighthouse_invocations_app, Hcount1. simpl.
      split; [exact Hle|]. intros r _. exact (Hnormal _ eq_refl).
    + intros [= <- <-].
      exists (evs1 ++ evs2)%list.
      split; [rewrite Hhist2, Hhist1, <- app_assoc; reflexivity|].
      split; [apply (trace_ok_seq axeResults); assumption|].
      split; [now rewrite Hres2, Hres1|].
      intros Henv. destruct (Hlh Henv) as [Hle Hnormal].
      rewrite lighthouse_invocations_app, Hcount1. simpl.
      split; [exact Hle | discriminate].
  - intros [= <- <-]. exists evs1.
    split; [exact Hhist1|]. split; [exact Hok1|]. split; [exact Hres1|].
    intros _. rewrite Hcount1. split; [lia | discriminate].
Qed.

(** *** Completion: engines that do not fail let the call return *)

Lemma for_loop_completes (n : nat) (body : Audit unit) :
  (forall w, exists w', body w = (Normal tt, w')) ->
  forall w, exists w', for_loop n body w = (Normal tt, w').
Proof.
  intros Hbody. induction n as [|n IH]; intros w; simpl.
  - now exists w.
  - unfold bind. destruct (Hbody w) as [w1 ->]. apply IH.
Qed.

Lemma axe_audit_completes (p : page) (config : value) (url state : string) (w : world) :
  (forall past, exists v, runAccessibilityAudit p config past = Normal v) ->
  (AuditCache.has (auditCache w) url state = true ->
   AuditCache.get (auditCache w) url state <> VNull) ->
  exists axeResults w',
    axe_audit runAccessibilityAudit process_env p config url state w
    = (Normal axeResults, w').
Proof.
  intros Hengine Hentry. unfold axe_audit.
  destruct (env_is_true process_env "ENABLE_AXE"); [|now eexists _, _].
  unfold bind, read_cache.
  destruct (AuditCache.has (auditCache w) url state).
  - specialize (Hentry eq_refl). unfold AuditCache.get, or_else in *.
    destruct (to_boolean (AuditCache.map_get _ _)) eqn:Htruthy; [|contradiction].
    unfold member.
    destruct (AuditCache.map_get _ _); try discriminate Htruthy; now eexists _, _.
  - unfold invoke. destruct (Hengine (history w)) as [v ->].
    now eexists _, _.
Qed.

Lemma lighthouse_audit_completes (p : page) (config : value) (url state : string)
    (w : world) :
  (forall past, exists v, runLighthouseAudit p config past = Normal v) ->
  exists lighthouseResults w',
    lighthouse_audit runLighthouseAudit process_env p config url state w
    = (Normal lighthouseResults, w').
Proof.
  intros Hengine. unfold lighthouse_audit.
  destruct (env_is_true process_env "ENABLE_LIGHTHOUSE"); [|now eexists _, _].
  unfold bind at 1. unfold read_cache at 1.
  destruct (negb _).
  - unfold bind at 1.
    edestruct (for_loop_completes
                 (REQUIRED_LIGHTHOUSE_RUNS
                  - length (AuditCache.getLighthouseRuns (auditCache w) url state))
                 (let* result := invoke Lighthouse (runLighthouseAudit p config) in
                  update_cache (fun c => AuditCache.addLighthouseRun c url result state)))
      as [w1 ->].
    + intros w0. unfold bind, invoke. destruct (Hengine (history w0)) as [v ->].
      now eexists.
    + now eexists _, _.
  - now eexists _, _.
Qed.

Lemma runCombinedAudit_completes (p : page) (info : testInfo) (config : value) (w : world) :
  (forall past, exists v, runAccessibilityAudit p config past = Normal v) ->
  (forall past, exists v, runLighthouseAudit p config past = Normal v) ->
  (AuditCache.has (auditCache w) (page_url p) (getPageState p) = true ->
   AuditCache.get (auditCache w) (page_url p) (getPageState p) <> VNull) ->
  exists result w',
    runCombinedAudit runAccessibilityAudit runLighthouseAudit process_env p info config w
    = (Normal result, w').
Proof.
  intros Haxe Hlh Hentry. unfold runCombinedAudit. cbv zeta. unfold bind at 1.
  destruct (axe_audit_completes p config _ _ w Haxe Hentry) as (a & w1 & ->).
  unfold bind at 1.
  destruct (lighthouse_audit_completes p config (page_url p) (getPageState p) w1 Hlh)
    as (l & w2 & ->).
  now eexists _, _.
Qed.

End OrchestratorFacts.

Section OrchestratorClaims.

Variable runAccessibilityAudit : page -> value -> list event -> completion value.
Variable runLighthouseAudit : page -> value -> list event -> completion value.
Variable process_env : gmap string string.

(** C3, amended: with the Lighthouse audit enabled and [k] runs cached
    for the key (url, state), a call invokes the Lighthouse engine at most
    max(0, 3 - k) times, and a call that completes invokes it exactly
    max(0, 3 - k) times: 3 times when nothing is cached, after which a
    later call for the same key invokes it 0 times. *)
Theorem lighthouse_engine_invocations (p : page) (info : testInfo) (config : value)
    (w w' : world) (out : completion value) :
  env_is_true process_env "ENABLE_LIGHTHOUSE" = true ->
  runCombinedAudit runAccessibilityAudit runLighthouseAudit process_env p info config w
  = (out, w') ->
  let k := length (AuditCache.getLighthouseRuns (auditCache w) (page_url p) (getPageState p)) in
  (Z.of_nat (lighthouse_invocations (new_events w w')) <= Z.max 0 (3 - Z.of_nat k))%Z /\
  (forall result, out = Normal result ->
     Z.of_nat (lighthouse_invocations (new_events w w')) = Z.max 0 (3 - Z.of_nat k) /\
     (k = 0 -> lighthouse_invocations (new_events w w') = 3) /\
     (forall p2 info2 config2 out2 w2,
         page_url p2 = page_url p -> getPageState p2 = getPageState p ->
         runCombinedAudit runAccessibilityAudit runLighthouseAudit process_env
           p2 info2 config2 w' = (out2, w2) ->
         lighthouse_invocations (new_events w' w2) = 0)).
Proof.
  intros Henv Hrun k.
  apply runCombinedAudit_spec in Hrun as (evs & Hhist & _ & _ & Hlh).
  destruct (Hlh Henv) as [Hle Hnormal]. fold k in Hle.
  rewrite (new_events_app _ _ _ Hhist).
  split; [lia|].
  intros result ->.
  destruct (Hnormal result eq_refl) as [Hcount Hcached]. fold k in Hcount.
  split; [lia|]. split; [lia|].
  intros p2 info2 config2 out2 w2 Hurl Hstate Hrun2.
  apply runCombinedAudit_spec in Hrun2 as (evs2 & Hhist2 & _ & _ & Hlh2).
  destruct (Hlh2 Henv) as [Hle2 _]. rewrite Hurl, Hstate in Hle2.
  rewrite (new_events_app _ _ _ Hhist2). lia.
Qed.

(** C7: when an engine invocation made by a call fails, the call throws
    what the engine threw, and nothing is appended to the result
    collection. *)
Theorem engine_failure_propagates (p : page) (info : testInfo) (config : value)
    (w w' : world) (out : completion value) (ev : event) (e : value) :
  runCombinedAudit runAccessibilityAudit runLighthouseAudit process_env p info config w
  = (out, w') ->
  In ev (new_events w w') -> ev_outcome ev = Throw e ->
  out = Throw e /\ testResults w' = testResults w.
Proof.
  intros Hrun Hin Hev.
  apply runCombinedAudit_spec in Hrun as (evs & Hhist & Hok & Hres & _).
  rewrite (new_events_app _ _ _ Hhist) in Hin.
  pose proof (trace_ok_failure _ _ _ _ Hok Hin Hev) as ->.
  split; [reflexivity | exact Hres].
Qed.

End OrchestratorClaims.

(** C3, as stated, fails for a call that an engine failure aborts: with
    nothing cached and a Lighthouse engine whose second invocation fails,
    the engine is invoked twice, not three times. *)
Lemma lighthouse_failure_cuts_runs_short :
  let call :=
    runCombinedAudit Example.axe_engine Example.flaky_lighthouse_engine Example.env
      Example.todo_page Example.info Example.config Example.fresh in
  env_is_true Example.env "ENABLE_LIGHTHOUSE" = true /\
  length (AuditCache.getLighthouseRuns (auditCache Example.fresh)
            (page_url Example.todo_page) (getPageState Example.todo_page)) = 0 /\
  lighthouse_invocations (new_events Example.fresh (snd call)) = 2 /\
  Z.of_nat (lighthouse_invocations (new_events Example.fresh (snd call)))
  <> Z.max 0 (3 - 0).
Proof. vm_compute. repeat split; try reflexivity. discriminate. Qed.

Lemma lighthouse_engine_invocations_witness :
  let first_call :=
    runCombinedAudit Example.axe_engine Example.lighthouse_engine Example.env
      Example.todo_page Example.info Example.config Example.fresh in
  let second_call :=
    runCombinedAudit Example.axe_engine Example.lighthouse_engine Example.env
      Example.todo_page Example.info Example.config (snd first_call) in
  lighthouse_invocations (new_events Example.fresh (snd first_call)) = 3 /\
  lighthouse_invocations (new_events (snd first_call) (snd second_call)) = 0.
Proof.
  intros first_call second_call.
  destruct first_call as [out1 w1] eqn:E1.
  assert (exists result, out1 = Normal result) as [result Hout].
  { pose proof E1 as E. subst first_call. vm_compute in E. injection E as <- _. eauto. }
  destruct second_call as [out2 w2] eqn:E2. cbn [snd] in *.
  assert (env_is_true Example.env "ENABLE_LIGHTHOUSE" = true) as Henv
    by (vm_compute; reflexivity).
  destruct (lighthouse_engine_invocations
              Example.axe_engine Example.lighthouse_engine Example.env
              Example.todo_page Example.info Example.config Example.fresh w1 out1
              Henv E1) as [_ Hdone].
  destruct (Hdone result Hout) as (_ & Hfirst & Hsecond).
  split.
  - apply Hfirst. reflexivity.
  - apply (Hsecond _ _ _ _ _ eq_refl eq_refl E2).
Defined.

Lemma engine_failure_propagates_witness :
  let call :=
    runCombinedAudit Example.axe_engine Example.flaky_lighthouse_engine Example.env
      Example.todo_page Example.info Example.config Example.fresh in
  fst call = Throw (VStr "Lighthouse failed") /\ testResults (snd call) = [].
Proof.
  intros call. destruct call as [out w'] eqn:E. cbn [fst snd].
  apply (engine_failure_propagates _ _ _ _ _ _ _ _ _
           {| ev_engine := Lighthouse; ev_outcome := Throw (VStr "Lighthouse failed") |}
           (VStr "Lighthouse failed") E).
  - subst call. vm_compute in E. injection E as _ <-. vm_compute. tauto.
  - reflexivity.
Defined.

(** * Further properties of the cache *)

Module AuditCacheMore.
Import AuditCache AuditCacheFacts.

Lemma key_length (url state : string) :
  String.length (_getCacheKey url state) = String.length url + S (String.length state).
Proof.
  induction url as [|ch url IH].
  - reflexivity.
  - rewrite key_cons. simpl. now rewrite IH.
Qed.

(** Two keys that end in the same state come from the same URL, and two
    keys that start with the same URL carry the same state. *)
Lemma key_same_state (url1 url2 state : string) :
  _getCacheKey url1 state = _getCacheKey url2 state -> url1 = url2.
Proof.
  revert url2. induction url1 as [|c1 url1 IH]; intros [|c2 url2] Heq.
  - reflexivity.
  - apply (f_equal String.length) in Heq. rewrite !key_length in Heq. simpl in Heq. lia.
  - apply (f_equal String.length) in Heq. rewrite !key_length in Heq. simpl in Heq. lia.
  - rewrite !key_cons in Heq. injection Heq as -> Heq. f_equal. now apply IH.
Qed.

Lemma key_same_url (url state1 state2 : string) :
  _getCacheKey url state1 = _getCacheKey url state2 -> state1 = state2.
Proof.
  induction url as [|ch url IH]; rewrite ?key_nil, ?key_cons; intros Heq.
  - now injection Heq.
  - injection Heq as Heq. now apply IH.
Qed.

(** X1: two different pairs that share the URL, or share the state, never
    collide, whatever characters the states contain: what is stored under
    one is not seen by [get], [has] or [getLighthouseRuns] for the other. *)
Theorem shared_component_isolation (c : t) (url1 state1 url2 state2 : string) (v : value) :
  url1 = url2 \/ state1 = state2 ->
  (url1, state1) <> (url2, state2) ->
  get (set c url1 v state1) url2 state2 = get c url2 state2 /\
  has (set c url1 v state1) url2 state2 = has c url2 state2 /\
  getLighthouseRuns (addLighthouseRun c url1 v state1) url2 state2
  = getLighthouseRuns c url2 state2.
Proof.
  intros Hshared Hne.
  assert (_getCacheKey url1 state1 <> _getCacheKey url2 state2) as Hkey.
  { intros Heq. apply Hne. destruct Hshared as [-> | ->].
    - now rewrite (key_same_url _ _ _ Heq).
    - now rewrite (key_same_state _ _ _ Heq). }
  unfold get, has, getLighthouseRuns, set, addLighthouseRun, map_get; simpl.
  now rewrite !lookup_insert_ne by exact Hkey.
Qed.

Lemma shared_component_isolation_witness :
  get (set new "/todo" (VStr "stored") "a#b") "/todo" "b" = VNull /\
  has (set new "/todo#a" (VStr "stored") "b") "/todo" "b" = false.
Proof.
  split.
  - apply (shared_component_isolation new "/todo" "a#b" "/todo" "b" (VStr "stored"));
      [now left | discriminate].
  - apply (shared_component_isolation new "/todo#a" "b" "/todo" "b" (VStr "stored"));
      [now right | discriminate].
Defined.

(** X2: [addLighthouseRun] accumulates: after adding the runs [rs] one by
    one under a key, [getLighthouseRuns] returns the runs cached before
    followed by [rs] in call order, and [hasEnoughLighthouseRuns] holds
    exactly when the required number is at most the old count plus the
    number added. *)
Theorem runs_accumulate_in_order (c : t) (url state : string) (rs : list value)
    (requiredRuns : nat) :
  let c' := fold_left (fun c r => addLighthouseRun c url r state) rs c in
  getLighthouseRuns c' url state = (getLighthouseRuns c url state ++ rs)%list /\
  hasEnoughLighthouseRuns c' url state requiredRuns
  = (requiredRuns <=? length (getLighthouseRuns c url state) + length rs)%nat /\
  (forall url' state', get c' url' state' = get c url' state' /\
                       has c' url' state' = has c url' state').
Proof.
  revert c. induction rs as [|r rs IH]; intros c; cbn zeta; simpl fold_left.
  - rewrite app_nil_r. unfold hasEnoughLighthouseRuns. rewrite Nat.add_0_r. auto.
  - destruct (IH (addLighthouseRun c url r state)) as (Hruns & Henough & Hcache).
    cbn zeta in *. rewrite getLighthouseRuns_add_same in *.
    split; [now rewrite Hruns, <- app_assoc|].
    split; [|exact Hcache].
    rewrite Henough, length_app. simpl. f_equal. lia.
Qed.

Lemma get_cases (c : t) (url state : string) :
  get c url state = VNull \/ to_boolean (get c url state) = true.
Proof.
  unfold get, or_else. destruct (to_boolean (map_get (cache c) _)) eqn:Hv; auto.
Qed.

(** X3: [get] returns either [null] or a truthy value, never [undefined]
    or another falsy value; and whenever it returns something other than
    [null], [has] is true for the key. *)
Theorem get_null_or_truthy (c : t) (url state : string) :
  get c url state = VNull \/
  (to_boolean (get c url state) = true /\ has c url state = true).
Proof.
  unfold get, has, map_get, or_else.
  destruct (cache c !! _getCacheKey url state) as [v|]; [|now left].
  destruct (to_boolean v) eqn:Hv; [right | left]; auto.
Qed.

End AuditCacheMore.

(** * Further properties of the classifier *)

(** X4: the label tells the state of the list: [empty] exactly when there
    is no item, [completed] exactly when there are items and all are done,
    [mixed] exactly when some item is done and some is not, [with-items]
    exactly when there are items and none is done. *)
Theorem getPageState_label_meaning (p : page) :
  (getPageState p = "empty" <-> todo_list p = []) /\
  (getPageState p = "completed" <->
   todo_list p <> [] /\ forallb completed (todo_list p) = true) /\
  (getPageState p = "mixed" <->
   existsb completed (todo_list p) = true /\ forallb completed (todo_list p) = false) /\
  (getPageState p = "with-items" <->
   todo_list p <> [] /\ existsb completed (todo_list p) = false).
Proof.
  destruct (filter_length_facts completed (todo_list p)) as (Hle & Hall & Hnone).
  unfold getPageState, states.empty, states.completed, states.mixed, query_all.
  destruct (todo_list p) as [|item items] eqn:Hlist.
  - simpl. repeat split; try discriminate; try tauto; intros []; congruence.
  - rewrite <- Hlist in *.
    assert (length (todo_list p) <> 0) as Hlen by (rewrite Hlist; discriminate).
    assert (todo_list p <> []) as Hne by (rewrite Hlist; discriminate).
    destruct (Nat.eqb_spec (length (todo_list p)) 0) as [|_]; [contradiction|].
    destruct (Nat.ltb_spec 0 (length (List.filter completed (todo_list p)))) as [Hpos|Hzero];
      cbn [andb].
    + assert (existsb completed (todo_list p) = true) as Hex.
      { destruct (existsb completed (todo_list p)) eqn:E; [reflexivity|].
        assert (length (List.filter completed (todo_list p)) = 0) by (now apply Hnone).
        lia. }
      destruct (Nat.eqb_spec (length (List.filter completed (todo_list p)))
                  (length (todo_list p))) as [Heq|Hneq].
      * apply Hall in Heq.
        repeat split; try discriminate; try tauto; intros []; congruence.
      * assert (forallb completed (todo_list p) = false) as Hnot.
        { destruct (forallb completed (todo_list p)) eqn:E; [|reflexivity].
          exfalso. apply Hneq. now apply Hall. }
        destruct (Nat.ltb_spec (length (List.filter completed (todo_list p)))
                    (length (todo_list p))) as [_|]; [|lia].
        repeat split; try discriminate; try tauto; intros []; congruence.
    + assert (existsb completed (todo_list p) = false) as Hex by (apply Hnone; lia).
      assert (forallb completed (todo_list p) = false) as Hnot.
      { destruct (forallb completed (todo_list p)) eqn:E; [|reflexivity].
        assert (length (List.filter completed (todo_list p)) = length (todo_list p))
          by (now apply Hall).
        lia. }
      repeat split; try discriminate; try tauto; intros []; congruence.
Qed.

(** * Further properties of the orchestrator *)

Lemma getLighthouseRuns_add (c : AuditCache.t) (url state u s : string) (r : value) :
  AuditCache.getLighthouseRuns (AuditCache.addLighthouseRun c url r state) u s
  = (AuditCache.getLighthouseRuns c u s
     ++ (if String.eqb (AuditCache._getCacheKey u s) (AuditCache._getCacheKey url state)
         then [r] else []))%list.
Proof.
  unfold AuditCache.getLighthouseRuns, AuditCache.addLighthouseRun. simpl.
  destruct (String.eqb_spec (AuditCache._getCacheKey u s) (AuditCache._getCacheKey url state))
    as [Heq|Hne].
  - rewrite Heq, lookup_insert_eq. reflexivity.
  - rewrite lookup_insert_ne by congruence. now rewrite app_nil_r.
Qed.

Lemma run_results_app (evs1 evs2 : list event) :
  run_results (evs1 ++ evs2)%list = (run_results evs1 ++ run_results evs2)%list.
Proof. unfold run_results. apply flat_map_app. Qed.

Lemma axe_invocations_app (evs1 evs2 : list event) :
  axe_invocations (evs1 ++ evs2)%list = axe_invocations evs1 + axe_invocations evs2.
Proof. unfold axe_invocations. now rewrite List.filter_app, length_app. Qed.

(** When every invocation succeeded, each Lighthouse invocation left a
    result. *)
Lemma run_results_all_succeeded (evs : list event) :
  Forall succeeded evs -> length (run_results evs) = lighthouse_invocations evs.
Proof.
  induction 1 as [|ev evs Hev _ IH]; [reflexivity|].
  unfold lighthouse_invocations, run_results, is_lighthouse, succeeded in *.
  simpl. rewrite length_app, IH.
  destruct (ev_engine ev), (ev_outcome ev); simpl; try reflexivity; contradiction.
Qed.

Section OrchestratorEffects.

Variable runAccessibilityAudit : page -> value -> list event -> completion value.
Variable runLighthouseAudit : page -> value -> list event -> completion value.
Variable process_env : gmap string string.

(** What the Axe part does in each of its four cases. *)
Lemma axe_audit_effect (p : page) (config : value) (url state : string)
    (w w' : world) (out : completion value) :
  axe_audit runAccessibilityAudit process_env p config url state w = (out, w') ->
  testResults w' = testResults w /\
  AuditCache.lighthouseRuns (auditCache w') = AuditCache.lighthouseRuns (auditCache w) /\
  exists evs,
    history w' = (history w ++ evs)%list /\
    run_results evs = [] /\
    axe_invocations evs
    = (if env_is_true process_env "ENABLE_AXE"
          && negb (AuditCache.has (auditCache w) url state) then 1 else 0) /\
    (forall u s,
        AuditCache.has (auditCache w) u s = true \/
        AuditCache._getCacheKey u s <> AuditCache._getCacheKey url state ->
        AuditCache.get (auditCache w') u s = AuditCache.get (auditCache w) u s /\
        AuditCache.has (auditCache w') u s = AuditCache.has (auditCache w) u s) /\
    (forall a, out = Normal a ->
       if env_is_true process_env "ENABLE_AXE" then
         AuditCache.has (auditCache w') url state = true /\
         AuditCache.get (auditCache w') url state <> VNull /\
         get_prop (AuditCache.get (auditCache w') url state) "axeResults" = a
       else a = VNull) /\
    (env_is_true process_env "ENABLE_AXE" = true ->
     AuditCache.has (auditCache w) url state = true ->
     AuditCache.get (auditCache w) url state = VNull ->
     exists message, out = Throw (TypeError message) /\ w' = w).
Proof.
  unfold axe_audit.
  destruct (env_is_true process_env "ENABLE_AXE"); cbn [andb].
  - unfold bind, read_cache.
    destruct (AuditCache.has (auditCache w) url state) eqn:Hhas; cbn [negb].
    + unfold member.
      destruct (AuditCache.get (auditCache w) url state) eqn:Hget;
        unfold throw, ret; intros [= <- <-]; (split; [reflexivity|]); (split; [reflexivity|]);
        exists []; rewrite app_nil_r;
        (repeat split; trivial; try discriminate; try (intros a [= <-]; rewrite ?Hget; auto);
         try (intros _ _ _; eauto); try congruence).
      all: try (pose proof (AuditCacheMore.get_cases (auditCache w) url state) as Hg;
                rewrite Hget in Hg; destruct Hg as [Hg|Hg]; discriminate).
      all: try (intros _ _ [=]).
    + unfold invoke.
      destruct (runAccessibilityAudit p config (history w)) as [a|e] eqn:E;
        unfold update_cache, ret; simpl; intros [= <- <-]; simpl;
        (split; [reflexivity|]); (split; [reflexivity|]);
        eexists; (split; [reflexivity|]); (split; [reflexivity|]); (split; [reflexivity|]).
      * split; [|split; [|discriminate]].
        -- intros u s [Hu|Hu].
           ++ destruct (String.eqb_spec (AuditCache._getCacheKey u s)
                          (AuditCache._getCacheKey url state)) as [Heq|Hne].
              ** exfalso. unfold AuditCache.has in *. rewrite Heq in Hu. congruence.
              ** unfold AuditCache.get, AuditCache.has, AuditCache.set, AuditCache.map_get.
                 simpl. now rewrite lookup_insert_ne by congruence.
           ++ unfold AuditCache.get, AuditCache.has, AuditCache.set, AuditCache.map_get.
              simpl. now rewrite lookup_insert_ne by congruence.
        -- intros a' [= <-].
           rewrite AuditCacheFacts.has_set_same, AuditCacheFacts.get_set_same.
           repeat split; try reflexivity. discriminate.
      * split; [auto|]. split; discriminate.
  - unfold ret. intros [= <- <-]. split; [reflexivity|]. split; [reflexivity|].
    exists []. rewrite app_nil_r.
    repeat split; trivial; try discriminate. intros a [= <-]. reflexivity.
Qed.

(** The loop of Lighthouse runs invokes only the Lighthouse engine, leaves
    the Axe entries and the result collection alone, and appends the result
    of every successful run to the entry of its key. *)
Lemma lighthouse_loop_effect (p : page) (config : value) (url state : string) (n : nat) :
  forall (w w' : world) (out : completion unit),
  for_loop n
    (let* result := invoke Lighthouse (runLighthouseAudit p config) in
     update_cache (fun c => AuditCache.addLighthouseRun c url result state)) w
  = (out, w') ->
  testResults w' = testResults w /\
  AuditCache.cache (auditCache w') = AuditCache.cache (auditCache w) /\
  exists evs,
    history w' = (history w ++ evs)%list /\
    axe_invocations evs = 0 /\
    (forall u s,
        AuditCache.getLighthouseRuns (auditCache w') u s
        = (AuditCache.getLighthouseRuns (auditCache w) u s
           ++ (if String.eqb (AuditCache._getCacheKey u s) (AuditCache._getCacheKey url state)
               then run_results evs else []))%list).
Proof.
  induction n as [|n IH]; intros w w' out; simpl for_loop.
  - unfold ret. intros [= <- <-]. split; [reflexivity|]. split; [reflexivity|].
    exists []. rewrite app_nil_r. split; [reflexivity|]. split; [reflexivity|].
    intros u s. simpl. destruct (String.eqb _ _); now rewrite app_nil_r.
  - unfold bind at 1. unfold bind at 1. unfold invoke.
    destruct (runLighthouseAudit p config (history w)) as [r|e] eqn:E.
    + unfold update_cache at 1. cbn [auditCache testResults history].
      intros Hrest. apply IH in Hrest as (Hres & Hcache & evs & Hhist & Haxe & Hruns).
      cbn [auditCache testResults history] in *.
      split; [exact Hres|]. split; [exact Hcache|].
      exists ({| ev_engine := Lighthouse; ev_outcome := Normal r |} :: evs).
      split; [rewrite Hhist, <- app_assoc; reflexivity|].
      split; [exact Haxe|].
      intros u s. rewrite Hruns, getLighthouseRuns_add, <- app_assoc.
      f_equal. destruct (String.eqb _ _); reflexivity.
    + intros [= <- <-]. cbn [auditCache testResults history].
      split; [reflexivity|]. split; [reflexivity|].
      exists [{| ev_engine := Lighthouse; ev_outcome := Throw e |}].
      split; [reflexivity|]. split; [reflexivity|].
      intros u s. simpl. destruct (String.eqb _ _); now rewrite app_nil_r.
Qed.

Lemma lighthouse_audit_effect (p : page) (config : value) (url state : string)
    (w w' : world) (out : completion value) :
  lighthouse_audit runLighthouseAudit process_env p config url state w = (out, w') ->
  testResults w' = testResults w /\
  AuditCache.cache (auditCache w') = AuditCache.cache (auditCache w) /\
  exists evs,
    history w' = (history w ++ evs)%list /\
    axe_invocations evs = 0 /\
    (forall u s,
        AuditCache.getLighthouseRuns (auditCache w') u s
        = (AuditCache.getLighthouseRuns (auditCache w) u s
           ++ (if String.eqb (AuditCache._getCacheKey u s) (AuditCache._getCacheKey url state)
               then run_results evs else []))%list) /\
    (forall l, out = Normal l ->
       l = if env_is_true process_env "ENABLE_LIGHTHOUSE"
           then calculateAverageLighthouseScores
                  (AuditCache.getLighthouseRuns (auditCache w') url state)
           else VNull).
Proof.
  unfold lighthouse_audit.
  assert (forall w0 : world, forall u s,
             AuditCache.getLighthouseRuns (auditCache w0) u s
             = (AuditCache.getLighthouseRuns (auditCache w0) u s
                ++ (if String.eqb (AuditCache._getCacheKey u s)
                         (AuditCache._getCacheKey url state)
                    then run_results [] else []))%list) as Hsame.
  { intros w0 u s. simpl. destruct (String.eqb _ _); now rewrite app_nil_r. }
  destruct (env_is_true process_env "ENABLE_LIGHTHOUSE").
  - unfold bind at 1. unfold read_cache at 1.
    destruct (negb _).
    + unfold bind at 1.
      destruct (for_loop _ _ w) as [[u|e] w1] eqn:Hloop;
        apply lighthouse_loop_effect in Hloop as (Hres & Hcache & evs & Hhist & Haxe & Hruns).
      * unfold bind, read_cache, ret. intros [= <- <-].
        split; [exact Hres|]. split; [exact Hcache|]. exists evs.
        repeat split; trivial. now intros l [= <-].
      * intros [= <- <-]. split; [exact Hres|]. split; [exact Hcache|]. exists evs.
        repeat split; trivial. discriminate.
    + unfold bind, ret, read_cache. intros [= <- <-].
      split; [reflexivity|]. split; [reflexivity|]. exists []. rewrite app_nil_r.
      repeat split; trivial. now intros l [= <-].
  - unfold ret. intros [= <- <-].
    split; [reflexivity|]. split; [reflexivity|]. exists []. rewrite app_nil_r.
    repeat split; trivial. now intros l [= <-].
Qed.

(** The whole call. *)
Lemma runCombinedAudit_effect (p : page) (info : testInfo) (config : value)
    (w w' : world) (out : completion value) :
  runCombinedAudit runAccessibilityAudit runLighthouseAudit process_env p info config w
  = (out, w') ->
  let url := page_url p in
  let state := getPageState p in
  exists evs,
    history w' = (history w ++ evs)%list /\
    axe_invocations evs
    = (if env_is_true process_env "ENABLE_AXE"
          && negb (AuditCache.has (auditCache w) url state) then 1 else 0) /\
    (forall u s,
        AuditCache.getLighthouseRuns (auditCache w') u s
        = (AuditCache.getLighthouseRuns (auditCache w) u s
           ++ (if String.eqb (AuditCache._getCacheKey u s) (AuditCache._getCacheKey url state)
               then run_results evs else []))%list) /\
    (forall u s,
        AuditCache.has (auditCache w) u s = true \/
        AuditCache._getCacheKey u s <> AuditCache._getCacheKey url state ->
        AuditCache.get (auditCache w') u s = AuditCache.get (auditCache w) u s /\
        AuditCache.has (auditCache w') u s = AuditCache.has (auditCache w) u s) /\
    (forall result, out = Normal result ->
       exists axeResults,
         result
         = VObj [("testFile", file info);
                 ("testName", or_else (title info) (VStr ("Test for " ++ url)));
                 ("url", VStr url);
                 ("lighthouseResults",
                  if env_is_true process_env "ENABLE_LIGHTHOUSE"
                  then calculateAverageLighthouseScores
                         (AuditCache.getLighthouseRuns (auditCache w') url state)
                  else VNull);
                 ("axeResults", axeResults);
                 ("testInfo",
                  VObj [("title", or_else (title info) (VStr ("Test for " ++ url)));
                        ("url", VStr url);
                        ("project", project info)])] /\
         if env_is_true process_env "ENABLE_AXE" then
           AuditCache.has (auditCache w') url state = true /\
           AuditCache.get (auditCache w') url state <> VNull /\
           get_prop (AuditCache.get (auditCache w') url state) "axeResults" = axeResults
         else axeResults = VNull) /\
    (env_is_true process_env "ENABLE_AXE" = true ->
     AuditCache.has (auditCache w) url state = true ->
     AuditCache.get (auditCache w) url state = VNull ->
     exists message, out = Throw (TypeError message) /\ w' = w).
Proof.
  intros Hrun url state. revert Hrun.
  unfold runCombinedAudit. cbv zeta. fold url state. unfold bind at 1.
  destruct (axe_audit _ _ _ _ _ _ w) as [[axeResults|e] w1] eqn:Haxe;
    apply axe_audit_effect in Haxe
      as (Hres1 & Hruns1 & evs1 & Hhist1 & Hnone1 & Hcount1 & Hframe1 & Hentry1 & Hfalsy1).
  - unfold bind at 1.
    destruct (lighthouse_audit _ _ _ _ _ _ w1) as [[lighthouseResults|e] w2] eqn:Hlh;
      apply lighthouse_audit_effect in Hlh
        as (Hres2 & Hcache2 & evs2 & Hhist2 & Haxe2 & Hruns2 & Hout2);
      assert (forall u s, AuditCache.get (auditCache w2) u s = AuditCache.get (auditCache w1) u s
                          /\ AuditCache.has (auditCache w2) u s
                             = AuditCache.has (auditCache w1) u s) as Hframe2
        by (intros u s; unfold AuditCache.get, AuditCache.has; now rewrite Hcache2);
      assert (forall u s, AuditCache.getLighthouseRuns (auditCache w1) u s
                          = AuditCache.getLighthouseRuns (auditCache w) u s) as Hsame
        by (intros u s; unfold AuditCache.getLighthouseRuns; now rewrite Hruns1).
    + unfold bind, addResult, ret. intros [= <- <-]. cbn [auditCache testResults history].
      exists (evs1 ++ evs2)%list.
      split; [rewrite Hhist2, Hhist1, <- app_assoc; reflexivity|].
      split; [rewrite axe_invocations_app, Haxe2, Hcount1; lia|].
      split; [intros u s; rewrite Hruns2, Hsame, run_results_app, Hnone1; reflexivity|].
      split.
      { intros u s Hu. destruct (Hframe2 u s) as [-> ->]. now apply Hframe1. }
      split.
      { intros result [= <-]. exists axeResults. split.
        - now rewrite (Hout2 _ eq_refl).
        - specialize (Hentry1 _ eq_refl). destruct (Hframe2 url state) as [-> ->].
          exact Hentry1. }
      intros Henv Hhas Hget. destruct (Hfalsy1 Henv Hhas Hget) as (m & [=] & _).
    + intros [= <- <-].
      exists (evs1 ++ evs2)%list.
      split; [rewrite Hhist2, Hhist1, <- app_assoc; reflexivity|].
      split; [rewrite axe_invocations_app, Haxe2, Hcount1; lia|].
      split; [intros u s; rewrite Hruns2, Hsame, run_results_app, Hnone1; reflexivity|].
      split.
      { intros u s Hu. destruct (Hframe2 u s) as [-> ->]. now apply Hframe1. }
      split; [discriminate|].
      intros Henv Hhas Hget. destruct (Hfalsy1 Henv Hhas Hget) as (m & [=] & _).
  - intros [= <- <-]. exists evs1.
    split; [exact Hhist1|]. split; [exact Hcount1|].
    split.
    { intros u s. unfold AuditCache.getLighthouseRuns at 1. rewrite Hruns1, Hnone1.
      fold (AuditCache.getLighthouseRuns (auditCache w) u s).
      destruct (String.eqb _ _); now rewrite app_nil_r. }
    split; [exact Hframe1|]. split; [discriminate|]. exact Hfalsy1.
Qed.

End OrchestratorEffects.

Lemma average_runs_count (runs : list value) :
  runs <> [] ->
  get_prop (calculateAverageLighthouseScores runs) "runs"
  = VNum (number_of_nat (length runs)).
Proof.
  intros Hne. rewrite average_nonempty by exact Hne.
  unfold get_prop. cbn [own_props]. apply obj_get_set_eq.
Qed.

Section OrchestratorMore.

Variable runAccessibilityAudit : page -> value -> list event -> completion value.
Variable runLighthouseAudit : page -> value -> list event -> completion value.
Variable process_env : gmap string string.

(** After a call that completed with the Lighthouse audit enabled, the key
    holds max(k, 3) runs. *)
Lemma completed_call_run_count (p : page) (info : testInfo) (config : value)
    (w w' : world) (result : value) :
  env_is_true process_env "ENABLE_LIGHTHOUSE" = true ->
  runCombinedAudit runAccessibilityAudit runLighthouseAudit process_env p info config w
  = (Normal result, w') ->
  length (AuditCache.getLighthouseRuns (auditCache w') (page_url p) (getPageState p))
  = Nat.max (length (AuditCache.getLighthouseRuns (auditCache w)
                       (page_url p) (getPageState p))) 3.
Proof.
  intros Henv Hrun.
  pose proof (runCombinedAudit_spec _ _ _ _ _ _ _ _ _ Hrun)
    as (evs & Hhist & Hok & _ & Hcount).
  apply runCombinedAudit_effect in Hrun as (evs' & Hhist' & _ & Hruns & _).
  assert (evs' = evs) as -> by (rewrite Hhist in Hhist'; now apply app_inv_head in Hhist').
  destruct (Hcount Henv) as [_ Hnormal]. destruct (Hnormal _ eq_refl) as [Hinv _].
  cbv zeta in *.
  rewrite (Hruns (page_url p) (getPageState p)), String.eqb_refl, length_app.
  rewrite (run_results_all_succeeded _ Hok), Hinv. lia.
Qed.

(** X5: whether the call completes or is aborted, the runs cached for its
    key grow by exactly the results of the Lighthouse invocations that
    succeeded, in order, and the runs of every other key stay as they
    were. *)
Theorem successful_runs_are_cached (p : page) (info : testInfo) (config : value)
    (w : world) (u s : string) :
  let w' := snd (runCombinedAudit runAccessibilityAudit runLighthouseAudit process_env
                   p info config w) in
  AuditCache.getLighthouseRuns (auditCache w') u s
  = (AuditCache.getLighthouseRuns (auditCache w) u s
     ++ (if String.eqb (AuditCache._getCacheKey u s)
              (AuditCache._getCacheKey (page_url p) (getPageState p))
         then run_results (new_events w w') else []))%list.
Proof.
  destruct (runCombinedAudit _ _ _ p info config w) as [out w'] eqn:Hrun. cbn [snd].
  apply runCombinedAudit_effect in Hrun as (evs & Hhist & _ & Hruns & _).
  rewrite (new_events_app _ _ _ Hhist). apply Hruns.
Qed.

(** X6: a call invokes the Axe engine once when the Axe audit is enabled
    and the cache has no entry for the key, and not at all otherwise. *)
Theorem axe_engine_invoked_on_miss_only (p : page) (info : testInfo) (config : value)
    (w : world) :
  let w' := snd (runCombinedAudit runAccessibilityAudit runLighthouseAudit process_env
                   p info config w) in
  axe_invocations (new_events w w')
  = if env_is_true process_env "ENABLE_AXE"
       && negb (AuditCache.has (auditCache w) (page_url p) (getPageState p))
    then 1 else 0.
Proof.
  destruct (runCombinedAudit _ _ _ p info config w) as [out w'] eqn:Hrun. cbn [snd].
  apply runCombinedAudit_effect in Hrun as (evs & Hhist & Hcount & _).
  now rewrite (new_events_app _ _ _ Hhist).
Qed.

(** X7: a call never replaces or removes an existing cache entry, and never
    touches the entry of another key: for a pair that already had an entry,
    or whose key differs from the call's, [get] and [has] answer after the
    call as before. *)
Theorem existing_entries_untouched (p : page) (info : testInfo) (config : value)
    (w : world) (u s : string) :
  AuditCache.has (auditCache w) u s = true \/
  AuditCache._getCacheKey u s <> AuditCache._getCacheKey (page_url p) (getPageState p) ->
  let w' := snd (runCombinedAudit runAccessibilityAudit runLighthouseAudit process_env
                   p info config w) in
  AuditCache.get (auditCache w') u s = AuditCache.get (auditCache w) u s /\
  AuditCache.has (auditCache w') u s = AuditCache.has (auditCache w) u s.
Proof.
  intros Hu. destruct (runCombinedAudit _ _ _ p info config w) as [out w'] eqn:Hrun.
  cbn [snd]. apply runCombinedAudit_effect in Hrun as (evs & _ & _ & _ & Hframe & _).
  now apply Hframe.
Qed.

(** X8: Axe results are reused.  After a call that completed with the Axe
    audit enabled, a second call for the same key invokes the Axe engine
    no more, and when it completes it reports the same [axeResults]. *)
Theorem axe_results_reused (p p2 : page) (info info2 : testInfo) (config config2 : value)
    (w w1 w2 : world) (result : value) (out2 : completion value) :
  env_is_true process_env "ENABLE_AXE" = true ->
  runCombinedAudit runAccessibilityAudit runLighthouseAudit process_env p info config w
  = (Normal result, w1) ->
  page_url p2 = page_url p -> getPageState p2 = getPageState p ->
  runCombinedAudit runAccessibilityAudit runLighthouseAudit process_env p2 info2 config2 w1
  = (out2, w2) ->
  axe_invocations (new_events w1 w2) = 0 /\
  (forall result2, out2 = Normal result2 ->
                   get_prop result2 "axeResults" = get_prop result "axeResults").
Proof.
  intros Henv Hrun1 Hurl Hstate Hrun2.
  apply runCombinedAudit_effect in Hrun1 as (evs1 & _ & _ & _ & _ & Hout1 & _).
  apply runCombinedAudit_effect in Hrun2 as (evs2 & Hhist2 & Hcount2 & _ & Hframe2 & Hout2 & _).
  cbv zeta in *. rewrite Hurl, Hstate in *. rewrite Henv in *.
  destruct (Hout1 _ eq_refl) as (a1 & -> & Hhas1 & _ & Ha1).
  rewrite Hhas1 in Hcount2. rewrite (new_events_app _ _ _ Hhist2).
  split; [exact Hcount2|].
  intros result2 Hres2. destruct (Hout2 _ Hres2) as (a2 & -> & _ & _ & Ha2).
  destruct (Hframe2 _ _ (or_introl Hhas1)) as [Hget _]. rewrite Hget in Ha2.
  change (a2 = a1). congruence.
Qed.

(** X9: when the Axe audit is enabled and the cache holds a falsy value for
    the key ([has] is true but [get] returns [null]), the call throws a
    [TypeError] before any engine is invoked and leaves the cache and the
    result collection as they were. *)
Theorem falsy_cache_entry_throws (p : page) (info : testInfo) (config : value) (w : world) :
  env_is_true process_env "ENABLE_AXE" = true ->
  AuditCache.has (auditCache w) (page_url p) (getPageState p) = true ->
  AuditCache.get (auditCache w) (page_url p) (getPageState p) = VNull ->
  exists message,
    runCombinedAudit runAccessibilityAudit runLighthouseAudit process_env p info config w
    = (Throw (TypeError message), w).
Proof.
  intros Henv Hhas Hget.
  destruct (runCombinedAudit _ _ _ p info config w) as [out w'] eqn:Hrun.
  apply runCombinedAudit_effect in Hrun as (evs & _ & _ & _ & _ & _ & Hfalsy).
  destruct (Hfalsy Henv Hhas Hget) as (message & -> & ->). now exists message.
Qed.

(** X10: a call that completes appends exactly the record it returns to the
    result collection.  The record carries the page URL, the test title (or
    "Test for <url>" when the title is falsy), and under [lighthouseResults]
    the average of all the runs then cached for the key, whose [runs] count
    is max(k, 3) for [k] runs cached before; it is [null] when the
    Lighthouse audit is disabled, as is [axeResults] when the Axe audit is. *)
Theorem completed_call_record (p : page) (info : testInfo) (config : value)
    (w w' : world) (result : value) :
  runCombinedAudit runAccessibilityAudit runLighthouseAudit process_env p info config w
  = (Normal result, w') ->
  let url := page_url p in
  let state := getPageState p in
  let k := length (AuditCache.getLighthouseRuns (auditCache w) url state) in
  testResults w' = (testResults w ++ [result])%list /\
  get_prop result "url" = VStr url /\
  get_prop result "testName" = or_else (title info) (VStr ("Test for " ++ url)) /\
  (env_is_true process_env "ENABLE_AXE" = false -> get_prop result "axeResults" = VNull) /\
  (env_is_true process_env "ENABLE_LIGHTHOUSE" = false ->
   get_prop result "lighthouseResults" = VNull) /\
  (env_is_true process_env "ENABLE_LIGHTHOUSE" = true ->
   get_prop result "lighthouseResults"
   = calculateAverageLighthouseScores (AuditCache.getLighthouseRuns (auditCache w') url state)
   /\ get_prop (get_prop result "lighthouseResults") "runs"
      = VNum (number_of_nat (Nat.max k 3))).
Proof.
  intros Hrun url state k.
  pose proof (runCombinedAudit_spec _ _ _ _ _ _ _ _ _ Hrun) as (evs & _ & _ & Hres & _).
  pose proof (fun Henv => completed_call_run_count p info config w w' result Henv Hrun)
    as Hlen.
  apply runCombinedAudit_effect in Hrun as (evs' & _ & _ & _ & _ & Hout & _).
  destruct (Hout _ eq_refl) as (a & -> & Ha). fold url state in Ha, Hlen |- *.
  split; [exact Hres|]. split; [reflexivity|]. split; [reflexivity|].
  split; [intros Henv; rewrite Henv in Ha; now subst a|].
  split; [now intros -> |].
  intros Henv. rewrite Henv. split; [reflexivity|].
  change (get_prop (calculateAverageLighthouseScores
                      (AuditCache.getLighthouseRuns (auditCache w') url state)) "runs"
          = VNum (number_of_nat (Nat.max k 3))).
  specialize (Hlen Henv). fold k in Hlen.
  rewrite average_runs_count; [now rewrite Hlen|].
  intros Hnil. rewrite Hnil in Hlen. simpl in Hlen. lia.
Qed.

(** X11: the first audit after [resetTestResults], with both audits enabled
    and engines that do not fail, completes; it invokes the Axe engine once
    and the Lighthouse engine three times, and the result collection then
    holds just its record, whose Lighthouse average counts 3 runs. *)
Theorem first_audit_after_reset (p : page) (info : testInfo) (config : value) (w : world) :
  env_is_true process_env "ENABLE_AXE" = true ->
  env_is_true process_env "ENABLE_LIGHTHOUSE" = true ->
  (forall past, exists v, runAccessibilityAudit p config past = Normal v) ->
  (forall past, exists v, runLighthouseAudit p config past = Normal v) ->
  let w0 := snd (resetTestResults w) in
  exists result w',
    runCombinedAudit runAccessibilityAudit runLighthouseAudit process_env p info config w0
    = (Normal result, w') /\
    testResults w' = [result] /\
    axe_invocations (new_events w0 w') = 1 /\
    lighthouse_invocations (new_events w0 w') = 3 /\
    get_prop (get_prop result "lighthouseResults") "runs" = VNum 3.
Proof.
  intros Haxe Hlh Haxe_ok Hlh_ok w0.
  destruct (runCombinedAudit_completes runAccessibilityAudit runLighthouseAudit process_env
              p info config w0 Haxe_ok Hlh_ok) as (result & w' & Hrun).
  { discriminate. }
  exists result, w'. split; [exact Hrun|].
  pose proof (completed_call_run_count p info config w0 w' result Hlh Hrun) as Hlen.
  pose proof (runCombinedAudit_spec _ _ _ _ _ _ _ _ _ Hrun)
    as (evs & Hhist & _ & Hres & Hinv).
  pose proof (runCombinedAudit_effect _ _ _ _ _ _ _ _ _ Hrun)
    as (evs' & Hhist' & Hcount & _ & _ & Hout & _).
  assert (evs' = evs) as -> by (rewrite Hhist in Hhist'; now apply app_inv_head in Hhist').
  rewrite (new_events_app _ _ _ Hhist).
  split; [exact Hres|].
  split; [now rewrite Hcount, Haxe|].
  destruct (Hinv Hlh) as [_ Hnormal]. destruct (Hnormal _ eq_refl) as [Hthree _].
  split; [exact Hthree|].
  destruct (Hout _ eq_refl) as (a & -> & _). rewrite Hlh.
  change (get_prop (calculateAverageLighthouseScores
                      (AuditCache.getLighthouseRuns (auditCache w')
                         (page_url p) (getPageState p))) "runs" = VNum 3).
  rewrite average_runs_count; [now rewrite Hlen|].
  intros Hnil. rewrite Hnil in Hlen. discriminate.
Qed.

End OrchestratorMore.

Lemma existing_entries_untouched_witness :
  let w1 :=
    snd (runCombinedAudit Example.axe_engine Example.lighthouse_engine Example.env
           Example.todo_page Example.info Example.config Example.fresh) in
  let w2 :=
    snd (runCombinedAudit Example2.varying_axe_engine Example.lighthouse_engine Example.env
           Example2.other_page Example.info Example.config w1) in
  AuditCache.get (auditCache w2) "/todo" "empty" = AuditCache.get (auditCache w1) "/todo" "empty"
  /\ AuditCache.has (auditCache w2) "/todo" "empty" = true.
Proof.
  intros w1 w2.
  assert (AuditCache.has (auditCache w1) "/todo" "empty" = true) as Hhas
    by (vm_compute; reflexivity).
  destruct (existing_entries_untouched
              Example2.varying_axe_engine Example.lighthouse_engine Example.env
              Example2.other_page Example.info Example.config w1 "/todo" "empty"
              (or_introl Hhas)) as [Hget Hhas'].
  split; [exact Hget | now rewrite <- Hhas].
Defined.

Lemma axe_results_reused_witness :
  let first_call :=
    runCombinedAudit Example2.varying_axe_engine Example.lighthouse_engine Example.env
      Example.todo_page Example.info Example.config Example.fresh in
  let second_call :=
    runCombinedAudit Example2.varying_axe_engine Example.lighthouse_engine Example.env
      Example.todo_page Example.info Example.config (snd first_call) in
  axe_invocations (new_events (snd first_call) (snd second_call)) = 0 /\
  exists result result2,
    fst first_call = Normal result /\ fst second_call = Normal result2 /\
    get_prop result2 "axeResults" = get_prop result "axeResults".
Proof.
  intros first_call second_call.
  assert (exists result, fst first_call = Normal result) as [result H1]
    by (vm_compute; eexists; reflexivity).
  assert (exists result2, fst second_call = Normal result2) as [result2 H2]
    by (vm_compute; eexists; reflexivity).
  pose proof (surjective_pairing first_call) as E1. rewrite H1 in E1.
  pose proof (surjective_pairing second_call) as E2. rewrite H2 in E2.
  assert (env_is_true Example.env "ENABLE_AXE" = true) as Henv by (vm_compute; reflexivity).
  destruct (axe_results_reused
              Example2.varying_axe_engine Example.lighthouse_engine Example.env
              Example.todo_page Example.todo_page Example.info Example.info
              Example.config Example.config Example.fresh
              (snd first_call) (snd second_call) result (Normal result2)
              Henv E1 eq_refl eq_refl E2) as [Hnone Hsame].
  split; [exact Hnone|]. exists result, result2. auto.
Defined.

Lemma falsy_cache_entry_throws_witness :
  exists message,
    runCombinedAudit Example.axe_engine Example.lighthouse_engine Example.env
      Example.todo_page Example.info Example.config Example2.null_entry
    = (Throw (TypeError message), Example2.null_entry).
Proof.
  apply falsy_cache_entry_throws; vm_compute; reflexivity.
Defined.

Lemma completed_call_record_witness :
  let call :=
    runCombinedAudit Example.axe_engine Example.lighthouse_engine Example.env
      Example.todo_page Example.info Example.config Example.fresh in
  exists result,
    fst call = Normal result /\ testResults (snd call) = [result] /\
    get_prop result "url" = VStr "/todo" /\
    get_prop (get_prop result "lighthouseResults") "runs" = VNum 3.
Proof.
  intros call. destruct call as [out w'] eqn:E.
  assert (exists result, out = Normal result) as [result ->].
  { pose proof E as E'. subst call. vm_compute in E'. injection E' as <- _. eauto. }
  assert (env_is_true Example.env "ENABLE_LIGHTHOUSE" = true) as Henv
    by (vm_compute; reflexivity).
  destruct (completed_call_record
              Example.axe_engine Example.lighthouse_engine Example.env
              Example.todo_page Example.info Example.config Example.fresh w' result E)
    as (Hres & Hurl & _ & _ & _ & Hlh).
  exists result. cbn [fst snd]. repeat split; trivial. exact (proj2 (Hlh Henv)).
Defined.

Lemma first_audit_after_reset_witness :
  exists result w',
    runCombinedAudit Example.axe_engine Example.lighthouse_engine Example.env
      Example.todo_page Example.info Example.config (snd (resetTestResults Example2.null_entry))
    = (Normal result, w') /\
    testResults w' = [result].
Proof.
  destruct (first_audit_after_reset
              Example.axe_engine Example.lighthouse_engine Example.env
              Example.todo_page Example.info Example.config Example2.null_entry)
    as (result & w' & Hrun & Hres & _).
  - vm_compute. reflexivity.
  - vm_compute. reflexivity.
  - intros past. eexists. reflexivity.
  - intros past. eexists. reflexivity.
  - exists result, w'. split; assumption.
Defined.

(** * Properties of the Lighthouse helper, the settings and the Axe metrics *)

Module LighthouseAuditFacts.
Import LighthouseAudit.

Lemma metric_not_category (performance accessibility best_practices seo : float)
    (key : string) :
  is_category key = false ->
  metric (metrics performance accessibility best_practices seo) key = None.
Proof.
  unfold is_category, metrics. cbn [existsb metric].
  rewrite !(String.eqb_sym key).
  destruct (String.eqb "performance" key), (String.eqb "accessibility" key),
    (String.eqb "best-practices" key), (String.eqb "seo" key); cbn [orb];
    intros H; try discriminate H; reflexivity.
Qed.

(** X12: only the four categories can breach a threshold.  Thresholds for
    any other key are never checked, so the default [pwa] threshold of 50
    has no effect: with the default thresholds a breach is reported exactly
    when performance is under 80 or one of accessibility, best practices
    and SEO is under 90. *)
Theorem only_category_thresholds_can_breach (thresholds : list (string * float))
    (performance accessibility best_practices seo : float) :
  let ms := metrics performance accessibility best_practices seo in
  thresholdBreached thresholds ms
  = thresholdBreached (List.filter (fun entry => is_category (fst entry)) thresholds) ms /\
  thresholdBreached defaultThresholds ms
  = ((Math_round (performance * 100) <? 80)
     || (Math_round (accessibility * 100) <? 90)
     || (Math_round (best_practices * 100) <? 90)
     || (Math_round (seo * 100) <? 90))%float.
Proof.
  intros ms. split.
  - unfold thresholdBreached.
    induction thresholds as [|[key threshold] thresholds IH]; [reflexivity|].
    cbn [List.filter existsb fst snd]. destruct (is_category key) eqn:Hkey.
    + cbn [existsb fst snd]. now rewrite IH.
    + subst ms. now rewrite (metric_not_category _ _ _ _ _ Hkey).
  - subst ms. unfold thresholdBreached, defaultThresholds.
    cbn [existsb fst snd].
    rewrite (metric_not_category _ _ _ _ "pwa") by reflexivity.
    change (metric (metrics performance accessibility best_practices seo) "performance")
      with (Some (Math_round (performance * 100))).
    change (metric (metrics performance accessibility best_practices seo) "accessibility")
      with (Some (Math_round (accessibility * 100))).
    change (metric (metrics performance accessibility best_practices seo) "best-practices")
      with (Some (Math_round (best_practices * 100))).
    change (metric (metrics performance accessibility best_practices seo) "seo")
      with (Some (Math_round (seo * 100))).
    now rewrite !orb_false_r, !orb_assoc.
Qed.

End LighthouseAuditFacts.

Module DeviceSettingsFacts.
Import DeviceSettings.

Section Parsing.

Variable parseInt : option string -> float.
Variable parseFloat : option string -> float.

(** X13: [LIGHTHOUSE_DEVICE_TYPE] has no effect on the default device
    settings.  All four settings of the preset it selects are overwritten:
    the settings are [mobile] (whether [LIGHTHOUSE_MOBILE] is "true"), then
    the scale, width and height parsed from their variables, with 1, 1920
    and 1080 in place of a falsy result, whatever the device type. *)
Theorem device_type_has_no_effect (process_env : gmap string string) (device : string) :
  defaultDeviceSettings parseInt parseFloat process_env
  = [("mobile", VBool (match process_env !! "LIGHTHOUSE_MOBILE" with
                       | Some v => String.eqb v "true"
                       | None => false
                       end));
     ("deviceScaleFactor",
      or_else (VNum (parseFloat (process_env !! "LIGHTHOUSE_DEVICE_SCALE"))) (VNum 1));
     ("width", or_else (VNum (parseInt (process_env !! "LIGHTHOUSE_WIDTH"))) (VNum 1920));
     ("height", or_else (VNum (parseInt (process_env !! "LIGHTHOUSE_HEIGHT"))) (VNum 1080))]
  /\ defaultDeviceSettings parseInt parseFloat
       (<["LIGHTHOUSE_DEVICE_TYPE" := device]> process_env)
     = defaultDeviceSettings parseInt parseFloat process_env.
Proof.
  assert (forall env,
             defaultDeviceSettings parseInt parseFloat env
             = [("mobile", VBool (match env !! "LIGHTHOUSE_MOBILE" with
                                  | Some v => String.eqb v "true"
                                  | None => false
                                  end));
                ("deviceScaleFactor",
                 or_else (VNum (parseFloat (env !! "LIGHTHOUSE_DEVICE_SCALE"))) (VNum 1));
                ("width", or_else (VNum (parseInt (env !! "LIGHTHOUSE_WIDTH"))) (VNum 1920));
                ("height", or_else (VNum (parseInt (env !! "LIGHTHOUSE_HEIGHT"))) (VNum 1080))])
    as Hclosed.
  { intros env. unfold defaultDeviceSettings. cbv zeta.
    generalize (match or_else (env_value env "LIGHTHOUSE_DEVICE_TYPE") (VStr "desktop") with
                | VStr name => name
                | _ => "desktop"
                end).
    intros name. unfold deviceConfigs, preset.
    destruct (String.eqb "desktop" name); [reflexivity|].
    destruct (String.eqb "mobile" name); [reflexivity|].
    destruct (String.eqb "tablet" name); reflexivity. }
  split; [apply Hclosed|].
  rewrite !Hclosed. now rewrite !lookup_insert_ne by discriminate.
Qed.

End Parsing.

End DeviceSettingsFacts.

Module AxeAuditFacts.
Import AxeAudit.

(** A violation has at most one of the four impacts. *)
Lemma impact_exclusive (violation : object) :
  Nat.b2n (has_impact "critical" violation) + Nat.b2n (has_impact "serious" violation)
  + Nat.b2n (has_impact "moderate" violation) + Nat.b2n (has_impact "minor" violation) <= 1.
Proof.
  unfold has_impact. destruct (obj_get violation "impact") as [| | | |i|]; simpl; try lia.
  destruct (String.eqb_spec i "critical"), (String.eqb_spec i "serious"),
    (String.eqb_spec i "moderate"), (String.eqb_spec i "minor");
    subst; try discriminate; simpl; lia.
Qed.

Lemma count_impact_cons (impact : string) (violation : object) (violations : list object) :
  count_impact impact (violation :: violations)
  = Nat.b2n (has_impact impact violation) + count_impact impact violations.
Proof. unfold count_impact. simpl. now destruct (has_impact impact violation). Qed.

(** X14: the Axe metrics are consistent.  The four impact counts add up to
    at most the number of violations, [total_tests] is passes plus
    violations, each of the two flags is set exactly when one of its two
    counts is positive, and the status icon is the green check exactly when
    no violation has one of the four impacts (violations with another
    impact, or none, do not change it). *)
Theorem axe_metrics_consistent (violations passed : list object) :
  let m := calculate_metrics violations passed in
  critical_violations m + serious_violations m + moderate_violations m + minor_violations m
  <= total_violations m /\
  total_tests m = passes m + total_violations m /\
  (has_critical_or_serious m = true <-> 0 < critical_violations m + serious_violations m) /\
  (has_moderate_or_minor m = true <-> 0 < moderate_violations m + minor_violations m) /\
  (getStatusIcon m = GreenCheck <->
   critical_violations m + serious_violations m + moderate_violations m + minor_violations m
   = 0).
Proof.
  cbv zeta. unfold getStatusIcon, calculate_metrics. cbn [total_violations critical_violations
    serious_violations moderate_violations minor_violations passes total_tests
    has_critical_or_serious has_moderate_or_minor].
  assert (count_impact "critical" violations + count_impact "serious" violations
          + count_impact "moderate" violations + count_impact "minor" violations
          <= length violations /\
          (existsb (impact_among ["critical"; "serious"]) violations = true <->
           0 < count_impact "critical" violations + count_impact "serious" violations) /\
          (existsb (impact_among ["moderate"; "minor"]) violations = true <->
           0 < count_impact "moderate" violations + count_impact "minor" violations))
    as (Hle & Hcs & Hmm).
  { induction violations as [|v violations (IHle & IHcs & IHmm)].
    - unfold count_impact. simpl. repeat split; try (intros; lia); discriminate.
    - rewrite !count_impact_cons. pose proof (impact_exclusive v) as Hv.
      cbn [existsb length]. unfold impact_among at 1 3. cbn [existsb].
      rewrite !orb_false_r.
      destruct (has_impact "critical" v), (has_impact "serious" v),
        (has_impact "moderate" v), (has_impact "minor" v);
        cbn [Nat.b2n orb] in *; try lia;
        (split; [lia|]); split;
        try (split; [lia | reflexivity]);
        rewrite ?IHcs, ?IHmm; lia. }
  split; [exact Hle|]. split; [lia|]. split; [exact Hcs|]. split; [exact Hmm|].
  destruct (existsb (impact_among ["critical"; "serious"]) violations) eqn:E1; cbv iota.
  - assert (0 < count_impact "critical" violations + count_impact "serious" violations)
      by (now apply Hcs).
    split; [discriminate | lia].
  - destruct (existsb (impact_among ["moderate"; "minor"]) violations) eqn:E2; cbv iota.
    + assert (0 < count_impact "moderate" violations + count_impact "minor" violations)
        by (now apply Hmm).
      split; [discriminate | lia].
    + split; [intros _ | reflexivity].
      destruct (count_impact "critical" violations + count_impact "serious" violations)
        eqn:Ecs; [|assert (false = true) by (apply Hcs; lia); discriminate].
      destruct (count_impact "moderate" violations + count_impact "minor" violations)
        eqn:Emm; [|assert (false = true) by (apply Hmm; lia); discriminate].
      lia.
Qed.

End AxeAuditFacts.

(** * Averages of whole-number scores *)

Lemma metric_sum_whole_numbers (metric : string) (runs : list value) (scores : list nat) :
  Forall2 (fun run n => score_of run metric = Some (number_of_nat n) /\ n <= 100) runs scores ->
  forall total, total + 100 * length runs <= 1100 ->
  fold_left (fun acc run =>
               match score_of run metric with
               | Some x => (acc + x)%float
               | None => acc
               end) runs (number_of_nat total)
  = number_of_nat (total + list_sum scores) /\
  list_sum scores <= 100 * length runs.
Proof.
  induction 1 as [|run n runs scores [Hscore Hn] _ IH]; intros total Hbound.
  - simpl. rewrite Nat.add_0_r. split; [reflexivity | lia].
  - cbn [length] in Hbound. cbn [fold_left]. rewrite Hscore.
    rewrite (sums_exact_below_spec 1000 100 total n sums_exact) by lia.
    destruct (IH (total + n)) as [Hsum Hle]; [lia|].
    rewrite Hsum. change (list_sum (n :: scores)) with (n + list_sum scores).
    cbn [length]. split; [f_equal; lia | lia].
Qed.

(** X16: for up to ten runs whose scores for a metric are whole numbers
    between 0 and 100, the averaged score is the exact mean rounded half up
    to two decimals: binary floating point does not disturb the result in
    that range. *)
Theorem whole_number_scores_average_exactly (runs : list value) (scores : list nat)
    (metric : string) :
  In metric metrics ->
  1 <= length runs <= 10 ->
  Forall2 (fun run n => score_of run metric = Some (number_of_nat n) /\ n <= 100) runs scores ->
  get_prop (get_prop (calculateAverageLighthouseScores runs) "scores") metric
  = VNum (mean_rounded (list_sum scores) (length runs)).
Proof.
  intros Hm Hlen Hscores.
  destruct (metric_sum_whole_numbers metric runs scores Hscores 0) as [Hsum Hle]; [lia|].
  rewrite average_get_scores by (intros ->; simpl in Hlen; lia).
  unfold get_prop. cbn [own_props]. rewrite average_scores_get by exact Hm.
  unfold metric_average, metric_sum. change 0%float with (number_of_nat 0).
  rewrite Hsum. cbn [Nat.add].
  now rewrite (averages_exact_upto_spec 10 _ _ averages_exact).
Qed.

Lemma whole_number_scores_average_exactly_witness :
  get_prop (get_prop (calculateAverageLighthouseScores
                        [run_with_scores [("performance", VNum 90)];
                         run_with_scores [("performance", VNum 91)];
                         run_with_scores [("performance", VNum 90)]]) "scores") "performance"
  = VNum (mean_rounded (90 + 91 + 90) 3) /\
  mean_rounded (90 + 91 + 90) 3 = (9033 / 100)%float.
Proof.
  split; [|reflexivity].
  apply (whole_number_scores_average_exactly
           [run_with_scores [("performance", VNum 90)];
            run_with_scores [("performance", VNum 91)];
            run_with_scores [("performance", VNum 90)]] [90; 91; 90] "performance").
  - simpl. tauto.
  - simpl. lia.
  - repeat constructor.
Defined.

(** * Properties of the timestamps *)

Module FileUtilsFacts.
Import FileUtils.

Lemma app_cons (a : ascii) (s t : string) : String a s ++ t = String a (s ++ t).
Proof. reflexivity. Qed.

Lemma app_nil_l (t : string) : "" ++ t = t.
Proof. reflexivity. Qed.

Lemma app_nil_r (s : string) : s ++ "" = s.
Proof. induction s as [|a s IH]; [reflexivity|]. now rewrite app_cons, IH. Qed.

Lemma digit_differs (a ch : ascii) :
  (48 <=? nat_of_ascii a)%nat && (nat_of_ascii a <=? 57)%nat = true ->
  not_digit ch = true -> Ascii.eqb a ch = false.
Proof.
  intros Ha Hch. destruct (Ascii.eqb_spec a ch) as [->|]; [|reflexivity].
  unfold not_digit in Hch.
  apply andb_true_iff in Ha as [H1 H2]. apply Nat.leb_le in H1, H2.
  apply orb_true_iff in Hch as [H|H]; apply Nat.ltb_lt in H; lia.
Qed.

Lemma digits_lack (ch : ascii) (d : string) :
  digits d = true -> not_digit ch = true -> lacks ch d = true.
Proof.
  intros Hd Hch. induction d as [|a d IH]; [reflexivity|].
  simpl in Hd. apply andb_true_iff in Hd as [Ha Hd].
  simpl. now rewrite (digit_differs a ch Ha Hch), IH.
Qed.

Lemma lacks_app (ch : ascii) (s t : string) :
  lacks ch (s ++ t) = lacks ch s && lacks ch t.
Proof.
  induction s as [|a s IH]; [reflexivity|].
  rewrite app_cons. simpl. rewrite IH. now rewrite andb_assoc.
Qed.

Lemma replace_digits (d rest : string) :
  digits d = true ->
  replace_colons_and_dots (d ++ rest) = d ++ replace_colons_and_dots rest.
Proof.
  intros Hd. induction d as [|a d IH]; [reflexivity|].
  simpl in Hd. apply andb_true_iff in Hd as [Ha Hd].
  rewrite !app_cons. simpl. rewrite IH by exact Hd.
  now rewrite (digit_differs a ":" Ha), (digit_differs a "." Ha).
Qed.

Lemma replace_first_skip (ch : ascii) (replacement prefix rest : string) :
  lacks ch prefix = true ->
  replace_first ch replacement (prefix ++ String ch rest) = prefix ++ replacement ++ rest.
Proof.
  intros Hp. induction prefix as [|a prefix IH].
  - rewrite !app_nil_l. simpl. now rewrite Ascii.eqb_refl.
  - simpl in Hp. apply andb_true_iff in Hp as [Ha Hp].
    rewrite !app_cons. simpl. apply negb_true_iff in Ha. now rewrite Ha, IH.
Qed.

Lemma split_lacks (ch : ascii) (s : string) : lacks ch s = true -> split ch s = [s].
Proof.
  induction s as [|a s IH]; [reflexivity|]. simpl. intros H.
  apply andb_true_iff in H as [Ha Hs]. apply negb_true_iff in Ha.
  now rewrite Ha, IH.
Qed.

Lemma split_first (ch : ascii) (prefix rest : string) :
  lacks ch prefix = true ->
  split ch (prefix ++ String ch rest) = prefix :: split ch rest.
Proof.
  intros Hp. induction prefix as [|a prefix IH].
  - rewrite app_nil_l. simpl. now rewrite Ascii.eqb_refl.
  - simpl in Hp. apply andb_true_iff in Hp as [Ha Hp]. apply negb_true_iff in Ha.
    rewrite app_cons. simpl. now rewrite Ha, IH.
Qed.

Lemma replace_first_digits (ch : ascii) (replacement d rest : string) :
  digits d = true -> not_digit ch = true ->
  replace_first ch replacement (d ++ rest) = d ++ replace_first ch replacement rest.
Proof.
  intros Hd Hch. induction d as [|a d IH]; [reflexivity|].
  simpl in Hd. apply andb_true_iff in Hd as [Ha Hd].
  rewrite !app_cons. simpl. now rewrite (digit_differs a ch Ha Hch), IH.
Qed.

(** The timestamp of a date whose fields are digits: the fields joined by
    dashes. *)
Lemma getFormattedTimestamp_digits (year month day hour minute second ms : string) :
  digits year = true -> digits month = true -> digits day = true ->
  digits hour = true -> digits minute = true -> digits second = true ->
  digits ms = true ->
  getFormattedTimestamp (iso_text year month day hour minute second ms)
  = year ++ String "-" (month ++ String "-" (day ++ String "-" (hour ++ String "-"
      (minute ++ String "-" (second ++ String "-" ms))))).
Proof.
  intros HY HM HD Hh Hm Hs Hms.
  unfold getFormattedTimestamp, iso_text.
  rewrite !app_cons, !app_nil_l.
  repeat (rewrite replace_digits by assumption;
          cbn [replace_colons_and_dots Ascii.eqb Bool.eqb orb]).
  repeat (rewrite (replace_first_digits "T") by (assumption || reflexivity);
          cbn [replace_first Ascii.eqb Bool.eqb]).
  rewrite !app_cons, !app_nil_l.
  repeat (rewrite (replace_first_digits "Z") by (assumption || reflexivity);
          cbn [replace_first Ascii.eqb Bool.eqb]).
  now rewrite app_nil_l, app_nil_r.
Qed.

(** X17: round trip of the report timestamp.  For a date whose ISO text
    has digit-only fields (any year from 0 to 9999), the text
    [getFormattedTimestamp] makes is the seven fields joined by dashes,
    and [formatDisplayDate] recognises it as its own format: it splits it
    back into exactly those seven fields, which it passes to [Date.UTC]. *)
Theorem timestamp_round_trip (year month day hour minute second ms : string) :
  digits year = true -> digits month = true -> digits day = true ->
  digits hour = true -> digits minute = true -> digits second = true ->
  digits ms = true ->
  custom_format_fields
    (getFormattedTimestamp (iso_text year month day hour minute second ms))
  = Some [year; month; day; hour; minute; second; ms].
Proof.
  intros HY HM HD Hh Hm Hs Hms.
  rewrite getFormattedTimestamp_digits by assumption.
  unfold custom_format_fields.
  rewrite (split_lacks "T").
  - cbn [nth_error].
    rewrite !(split_first "-") by (apply digits_lack; [assumption | reflexivity]).
    rewrite (split_lacks "-") by (apply digits_lack; [assumption | reflexivity]).
    reflexivity.
  - repeat (rewrite lacks_app, digits_lack by (assumption || reflexivity);
            cbn [lacks Ascii.eqb Bool.eqb negb andb]).
    apply digits_lack; [assumption | reflexivity].
Qed.

Lemma timestamp_round_trip_witness :
  getFormattedTimestamp "2025-03-01T10:18:18.899Z" = "2025-03-01-10-18-18-899" /\
  custom_format_fields (getFormattedTimestamp "2025-03-01T10:18:18.899Z")
  = Some ["2025"; "03"; "01"; "10"; "18"; "18"; "899"].
Proof.
  split; [reflexivity|].
  apply (timestamp_round_trip "2025" "03" "01" "10" "18" "18" "899"); reflexivity.
Defined.

End FileUtilsFacts.

(** * The size of a cache entry *)

Lemma run_results_bounded (evs : list event) :
  length (run_results evs) <= lighthouse_invocations evs.
Proof.
  induction evs as [|ev evs IH]; [reflexivity|].
  unfold lighthouse_invocations, run_results, is_lighthouse in *.
  simpl. rewrite length_app.
  destruct (ev_engine ev), (ev_outcome ev); simpl; lia.
Qed.

Section CacheSize.

Variable runAccessibilityAudit : page -> value -> list event -> completion value.
Variable runLighthouseAudit : page -> value -> list event -> completion value.
Variable process_env : gmap string string.

(** X18: a call with the Lighthouse audit enabled, completed or aborted,
    leaves at most max(k, 3) runs cached for its key, [k] being the number
    cached before: an entry that held at most three runs never grows beyond
    three. *)
Theorem cached_runs_bounded (p : page) (info : testInfo) (config : value) (w : world) :
  env_is_true process_env "ENABLE_LIGHTHOUSE" = true ->
  let w' := snd (runCombinedAudit runAccessibilityAudit runLighthouseAudit process_env
                   p info config w) in
  let k := length (AuditCache.getLighthouseRuns (auditCache w)
                     (page_url p) (getPageState p)) in
  k <= length (AuditCache.getLighthouseRuns (auditCache w') (page_url p) (getPageState p))
  <= Nat.max k 3.
Proof.
  intros Henv.
  destruct (runCombinedAudit _ _ _ p info config w) as [out w'] eqn:Hrun. cbn [snd].
  pose proof (runCombinedAudit_spec _ _ _ _ _ _ _ _ _ Hrun) as (evs & Hhist & _ & _ & Hcount).
  apply runCombinedAudit_effect in Hrun as (evs' & Hhist' & _ & Hruns & _).
  assert (evs' = evs) as -> by (rewrite Hhist in Hhist'; now apply app_inv_head in Hhist').
  destruct (Hcount Henv) as [Hle _]. cbv zeta in *.
  rewrite (Hruns (page_url p) (getPageState p)), String.eqb_refl, length_app.
  pose proof (run_results_bounded evs). lia.
Qed.

End CacheSize.

Lemma cached_runs_bounded_witness :
  let w' :=
    snd (runCombinedAudit Example.axe_engine Example.flaky_lighthouse_engine Example.env
           Example.todo_page Example.info Example.config Example.fresh) in
  0 <= length (AuditCache.getLighthouseRuns (auditCache w') "/todo" "empty") <= 3.
Proof.
  apply (cached_runs_bounded Example.axe_engine Example.flaky_lighthouse_engine Example.env
           Example.todo_page Example.info Example.config Example.fresh).
  vm_compute. reflexivity.
Defined.

(** * Averages of runs as the Lighthouse helper returns them *)

Lemma engine_shaped_no_score (metric : string) (run : value) :
  engine_shaped run -> whole_number_score metric run None.
Proof. intros (p & a & b & s & t & h & j & ->). reflexivity. Qed.

Lemma mean_of_nothing (n : nat) : 1 <= n <= 10 -> mean_rounded 0 n = 0%float.
Proof.
  intros Hn. unfold mean_rounded.
  replace ((200 * Z.of_nat 0 + Z.of_nat n) / (2 * Z.of_nat n))%Z with 0%Z; [reflexivity|].
  symmetry. apply Z.div_small. lia.
Qed.

(** X15: averaging the real engine output gives zeros.  For one to ten
    runs as [runLighthouseAudit] returns them (scores under [metrics], no
    [scores] field), all five averaged scores are 0, whatever the runs
    scored; the result's [metrics], [thresholdBreached] and [reportPaths]
    are those of the last run, and it has no [thresholds]. *)
Theorem engine_runs_average_to_zero (runs : list value)
    (performance accessibility best_practices seo : float) (breached : bool)
    (html json : string) :
  length runs < 10 -> Forall engine_shaped runs ->
  let last_run :=
    lighthouse_result performance accessibility best_practices seo breached html json in
  let result := calculateAverageLighthouseScores (runs ++ [last_run])%list in
  get_prop result "scores"
  = VObj [("performance", VNum 0); ("accessibility", VNum 0); ("bestPractices", VNum 0);
          ("seo", VNum 0); ("pwa", VNum 0)] /\
  get_prop result "metrics" = get_prop last_run "metrics" /\
  get_prop result "thresholdBreached" = VBool breached /\
  get_prop result "reportPaths" = get_prop last_run "reportPaths" /\
  get_prop result "thresholds" = VUndefined.
Proof.
  intros Hlen Hshape last_run result. subst result.
  assert ((runs ++ [last_run])%list <> []) as Hne by (now destruct runs).
  assert (forall metric,
             metric_average metric (runs ++ [last_run])%list = 0%float) as Hzero.
  { intros metric.
    rewrite (metric_average_present metric _
               (repeat None (length (runs ++ [last_run])%list))).
    - assert (present_total (repeat None (length (runs ++ [last_run])%list)) = 0) as ->.
      { generalize (length (runs ++ [last_run])%list). intros n. unfold present_total.
        induction n as [|n IH]; [reflexivity | exact IH]. }
      apply mean_of_nothing. rewrite length_app. simpl. lia.
    - rewrite length_app. simpl. lia.
    - assert (Forall engine_shaped (runs ++ [last_run])%list) as Hall.
      { apply Forall_app. split; [exact Hshape|]. constructor; [|constructor].
        subst last_run. unfold engine_shaped. eauto 10. }
      clear -Hall. induction Hall as [|run rest Hrun _ IH]; [constructor|].
      cbn [length repeat]. constructor; [now apply engine_shaped_no_score | exact IH]. }
  split.
  { rewrite average_get_scores by exact Hne. unfold average_scores, metrics. cbn [map].
    now rewrite !Hzero. }
  rewrite average_nonempty by exact Hne. rewrite last_last.
  unfold get_prop. cbn [own_props]. subst last_run. unfold lighthouse_result.
  cbn [own_props]. rewrite !obj_get_set_ne by discriminate.
  repeat split; reflexivity.
Qed.

Lemma engine_runs_average_to_zero_witness :
  let result :=
    calculateAverageLighthouseScores
      [lighthouse_result 50 90 100 100 true "a.html" "a.json";
       lighthouse_result 60 90 100 100 true "b.html" "b.json";
       lighthouse_result 100 95 100 100 false "c.html" "c.json"] in
  get_prop (get_prop result "scores") "performance" = VNum 0 /\
  get_prop (get_prop result "metrics") "performance" = VNum 100.
Proof.
  intros result.
  destruct (engine_runs_average_to_zero
              [lighthouse_result 50 90 100 100 true "a.html" "a.json";
               lighthouse_result 60 90 100 100 true "b.html" "b.json"]
              100 95 100 100 false "c.html" "c.json") as (Hscores & Hmetrics & _).
  - simpl. lia.
  - repeat constructor; unfold engine_shaped; eauto 10.
  - subst result. cbn zeta in Hscores, Hmetrics. split.
    + change ([lighthouse_result 50 90 100 100 true "a.html" "a.json";
               lighthouse_result 60 90 100 100 true "b.html" "b.json";
               lighthouse_result 100 95 100 100 false "c.html" "c.json"])
        with ([lighthouse_result 50 90 100 100 true "a.html" "a.json";
               lighthouse_result 60 90 100 100 true "b.html" "b.json"]
              ++ [lighthouse_result 100 95 100 100 false "c.html" "c.json"])%list.
      rewrite Hscores. reflexivity.
    + change ([lighthouse_result 50 90 100 100 true "a.html" "a.json";
               lighthouse_result 60 90 100 100 true "b.html" "b.json";
               lighthouse_result 100 95 100 100 false "c.html" "c.json"])
        with ([lighthouse_result 50 90 100 100 true "a.html" "a.json";
               lighthouse_result 60 90 100 100 true "b.html" "b.json"]
              ++ [lighthouse_result 100 95 100 100 false "c.html" "c.json"])%list.
      rewrite Hmetrics. reflexivity.
Defined.
